(** * Token accounts on a Fabric ledger: contract and submission client

    A shallow embedding of

    - [contracts/asset-transfer-typescript/src/assetTransfer.ts], the chaincode
      [AssetTransferContract] (module [Chaincode] below), and
    - the gateway application's [contract.ts] with the class [AssetTransfer]
      and the function [submitWithRetry] (module [Client] below).

    Conventions of the embedding.

    - A JavaScript [number] is a double.  The numbers of the contract are
      read as integers of [Z], in two ways.  Module [Chaincode] computes with
      exact integers and prints them in plain decimal notation, which is what
      the contract does as long as every number involved is an integer of
      magnitude at most [2 ^ 53].  Module [Chaincode64] computes as doubles
      do on integer values, with the rounding written out (module [Double]),
      and is the reading used wherever a statement depends on the size of a
      number.  Amounts and lengths that are not integers are outside both.
    - A [Buffer] is the [string] of its bytes, and a JavaScript string is a
      [string] as well, one character for each code unit.
    - [async]/[await] is sequential composition: a transaction function is a
      computation in the monad [Tx] that reads the committed world state,
      accumulates a write set and an event, and may throw. *)

From Stdlib Require Import ZArith QArith Qround String Ascii List Lia.
From Stdlib Require Import DecimalString DecimalZ.
From stdpp Require Import gmap strings list sorting.

Local Open Scope Z_scope.

(** ** The JavaScript primitives the sources use *)

Module JS.

(** [n.toString()] for an integer [n]: decimal digits, a leading [-] for
    negative numbers.  This is what JavaScript prints for the integers of
    magnitude up to [2 ^ 53]. *)
Definition toString (n : Z) : string :=
  NilZero.string_of_int (Z.to_int n).

(** [Number(bytes)] on the text of a buffer.  The result is [Some n] when the
    text is an optional [-] followed by decimal digits, [n] being the integer
    so written; JavaScript then yields the double nearest to [n], which is
    [n] itself up to the magnitude [2 ^ 53].  Every other text ([None]) makes
    JavaScript yield [NaN] or a number written in another notation; the
    embedding does not follow the contract there (see [Outside]). *)
Definition Number_ (bytes : string) : option Z :=
  Z.of_int <$> NilZero.int_of_string bytes.

(** [Math.ceil] on a rational. *)
Definition Math_ceil (q : Q) : Z := Qceiling q.

(** [s.length] *)
Definition length (s : string) : Z := Z.of_nat (String.length s).

End JS.

(** ** Integer-valued doubles

    A JavaScript [number] is an IEEE 754 double.  The numbers of the contract
    are integer-valued, and such a double is represented by its value in [Z].
    Every integer of magnitude up to [2 ^ 53] is a double; a larger one is a
    double when it is a multiple of the power of two that leaves it 53
    significant bits.  [round] is rounding to the nearest double, ties to the
    even significand, as addition, subtraction and the reading of a decimal
    text perform it.  Magnitudes from [2 ^ 1024] on, where a double is
    infinite, are not told apart from the finite ones. *)

Module Double.

(** [x / y] rounded to the nearest integer, ties to the even one. *)
Definition nearest_even (x y : Z) : Z :=
  let q := x / y in
  let r := x mod y in
  if 2 * r <? y then q else if y <? 2 * r then q + 1 else q + q mod 2.

Definition round (z : Z) : Z :=
  if Z.abs z <=? 2 ^ 53 then z
  else let u := 2 ^ (Z.log2 (Z.abs z) - 52) in
       Z.sgn z * (nearest_even (Z.abs z) u * u).

(** The double [n / 10], as a fraction with denominator [2 ^ 56]: the
    quotient keeps 53 significant bits, and for an integer [n] other than
    zero its magnitude is at least a tenth. *)
Definition div10 (n : Z) : Z * Z :=
  if n =? 0 then (0, 1)
  else let u := 2 ^ (Z.log2 (Z.abs n * 2 ^ 56 / 10) - 52) in
       (Z.sgn n * (nearest_even (Z.abs n * 2 ^ 56) (10 * u) * u), 2 ^ 56).

(** [Math.ceil] of a double given as a fraction. *)
Definition ceil (q : Z * Z) : Z := - ((- q.1) / q.2).

(** The integers on which doubles are exact. *)
Definition exact (z : Z) : Prop := Z.abs z ≤ 2 ^ 53.

End Double.

(** ** The chaincode: [assetTransfer.ts] *)

Module Chaincode.

(** *** The ledger as the stub presents it *)

Definition Buffer := string.

(** [KeyEndorsementPolicy]: the role asked of each listed organisation. *)
Inductive Role := MEMBER | PEER.

#[global] Instance Role_eq_dec : EqDecision Role.
Proof. solve_decision. Defined.

Definition KeyEndorsementPolicy := gmap string Role.

(** The committed ledger: the value and the validation parameter of each
    key. *)
Record Ledger := mkLedger {
  values : gmap string Buffer;
  policies : gmap string KeyEndorsementPolicy
}.

Definition genesis : Ledger := mkLedger ∅ ∅.

(** What a transaction asks the ledger to do when it commits. *)
Inductive Write :=
| PutState (key : string) (value : Buffer)
| DeleteState (key : string)
| SetStateValidationParameter (key : string) (policy : KeyEndorsementPolicy).

Definition Event : Type := string * Buffer.

(** The transaction context [ctx]: the committed state that [ctx.stub] reads
    and the MSP identifier of [ctx.clientIdentity]. *)
Record Context := mkContext {
  world : Ledger;
  MSPID : string
}.

(** What the stub has collected so far: the writes in the order they were
    issued, and the event, of which a transaction keeps only the last one
    set. *)
Record Effects := mkEffects {
  writes : list Write;
  event : option Event
}.

Definition noEffects : Effects := mkEffects [] None.

(** The outcome of running a transaction function.  [Throw msg] is
    [throw new Error(msg)].  [Outside] marks a run that met a stored value
    which [JS.Number_] does not read as an integer. *)
Inductive Outcome (A : Type) :=
| Return (a : A) (fx : Effects)
| Throw (msg : string)
| Outside.
Arguments Return {A} a fx.
Arguments Throw {A} msg.
Arguments Outside {A}.

Definition Tx (A : Type) : Type := Context → Effects → Outcome A.

#[global] Instance Tx_ret : MRet Tx := λ A a _ fx, Return a fx.

#[global] Instance Tx_bind : MBind Tx := λ A B k m ctx fx,
  match m ctx fx with
  | Return a fx' => k a ctx fx'
  | Throw msg => Throw msg
  | Outside => Outside
  end.

Definition throw {A} (msg : string) : Tx A := λ _ _, Throw msg.

Definition outside {A} : Tx A := λ _ _, Outside.

(** [ctx.stub.getState(key)]: the committed value, the empty buffer when the
    key has none.  Writes of the running transaction are not visible. *)
Definition getState (key : string) : Tx Buffer :=
  λ ctx fx, Return (default "" (values (world ctx) !! key)) fx.

Definition emit (w : Write) : Tx unit :=
  λ _ fx, Return () (mkEffects (writes fx ++ [w]) (event fx)).

Definition putState (key : string) (value : Buffer) : Tx unit :=
  emit (PutState key value).

Definition deleteState (key : string) : Tx unit :=
  emit (DeleteState key).

Definition setStateValidationParameter
    (key : string) (policy : KeyEndorsementPolicy) : Tx unit :=
  emit (SetStateValidationParameter key policy).

Definition setEvent (name : string) (payload : Buffer) : Tx unit :=
  λ _ fx, Return () (mkEffects (writes fx) (Some (name, payload))).

Definition getMSPID : Tx string :=
  λ ctx fx, Return (MSPID ctx) fx.

(** [ctx.stub.getStateByRange('', '')]: every key with its value, in the
    order of the keys. *)
Definition key_le (x y : string * Buffer) : Prop := String.le x.1 y.1.

#[global] Instance key_le_dec : RelDecision key_le.
Proof. intros x y. unfold key_le. apply _. Defined.

Definition getStateByRange_all : Tx (list (string * Buffer)) :=
  λ ctx fx, Return (merge_sort key_le (map_to_list (values (world ctx)))) fx.

(** [Number(bytes)] inside a transaction. *)
Definition Number_ (bytes : Buffer) : Tx Z :=
  match JS.Number_ bytes with
  | Some n => mret n
  | None => outside
  end.

(** *** Helpers at the end of the source file *)

Definition evaluateObfuscation (data : string) : Z :=
  JS.Math_ceil (inject_Z (JS.length data) / 10).

Definition evaluateDeduction (requiredLength : Z) : Z :=
  JS.Math_ceil (inject_Z requiredLength / 10).

(** [policy.addOrgs(role, ...orgs)] *)
Definition addOrgs (role : Role) (orgs : list string)
    (policy : KeyEndorsementPolicy) : KeyEndorsementPolicy :=
  foldl (λ p org, <[org := role]> p) policy orgs.

Definition newMemberPolicy (orgs : list string) : KeyEndorsementPolicy :=
  addOrgs MEMBER orgs ∅.

Definition setEndorsingOrgs (ledgerKey : string) (orgs : list string) : Tx unit :=
  let policy := newMemberPolicy orgs in
  setStateValidationParameter ledgerKey policy.

(** *** The messages of the errors thrown *)

Definition AlreadyExists (id : string) : string :=
  "The asset " +:+ id +:+ " already exists".

Definition NotCreated (id : string) : string :=
  "Sorry, asset " +:+ id +:+ " has not been created".

Definition DoesNotExist (id : string) : string :=
  "The asset " +:+ id +:+ " does not exist".

Definition InsufficientBalance (id : string) : string :=
  "Client " +:+ id +:+ " has insufficient tokens".

(** *** The transaction functions of [AssetTransferContract] *)

Definition ClientExists (id : string) : Tx bool :=
  tokAmount ← getState id;
  mret (0 <? JS.length tokAmount).

Definition AddClient (id : string) (initAmount : Z) : Tx unit :=
  exists_ ← ClientExists id;
  if (exists_ : bool) then throw (AlreadyExists id) else
  putState id (JS.toString initAmount);;
  mspid ← getMSPID;
  setEndorsingOrgs id [mspid];;
  setEvent "AddClient" (JS.toString initAmount).

Definition GetTokens (id : string) : Tx Z :=
  assetBytes ← getState id;
  if JS.length assetBytes =? 0 then throw (NotCreated id) else
  Number_ assetBytes.

Definition PutTokens (id : string) (newAmount : Z) : Tx unit :=
  exists_ ← ClientExists id;
  if negb exists_ then throw (DoesNotExist id) else
  putState id (JS.toString newAmount);;
  mspid ← getMSPID;
  setEndorsingOrgs id [mspid];;
  setEvent "PutTokens" (JS.toString newAmount).

Definition DeleteClient (id : string) : Tx unit :=
  assetBytes ← getState id;
  if JS.length assetBytes =? 0 then throw (NotCreated id) else
  deleteState id;;
  setEvent "DeleteClient" assetBytes.

Definition ContributeResource (id : string) (data : string) : Tx unit :=
  exists_ ← ClientExists id;
  if negb exists_ then throw (DoesNotExist id) else
  currentTokens ← GetTokens id;
  let newAmount := currentTokens + evaluateObfuscation data in
  PutTokens id newAmount;;
  setEvent "ContributeResource" (JS.toString newAmount).

Definition ConsumeResource (id : string) (requiredLength : Z) : Tx unit :=
  exists_ ← ClientExists id;
  if negb exists_ then throw (DoesNotExist id) else
  currentTokens ← GetTokens id;
  let newAmount := currentTokens - evaluateDeduction requiredLength in
  if newAmount <? 0 then throw (InsufficientBalance id) else
  PutTokens id newAmount;;
  setEvent "ConsumeResource" (JS.toString newAmount).

(** An entry of the listing, [{ id, tokens }]. *)
Record Asset := mkAsset { id : string; tokens : Z }.

(** The loop of [GetAllTokens] over the iterator's results. *)
Fixpoint collect (results : list (string * Buffer)) (assets : list Asset)
    : Tx (list Asset) :=
  match results with
  | [] => mret assets
  | result :: rest =>
      n ← Number_ result.2;
      collect rest (assets ++ [mkAsset result.1 n])
  end.

(** [sortKeysRecursive(assets)]: in each object the keys [id], [tokens] are
    already in order, and the objects themselves all print as the same text
    under the default comparison, so the array keeps its order. *)
Definition sortKeysRecursive (assets : list Asset) : list Asset := assets.

(** [GetAllTokens] up to the serialisation of its result: the value handed
    to [stringify]. *)
Definition GetAllTokens : Tx (list Asset) :=
  iterator ← getStateByRange_all;
  assets ← collect iterator [];
  mret (sortKeysRecursive assets).

(** *** Commit: what the ledger does with a transaction *)

Definition apply_write (L : Ledger) (w : Write) : Ledger :=
  match w with
  | PutState key value => mkLedger (<[key := value]> (values L)) (policies L)
  | DeleteState key => mkLedger (delete key (values L)) (policies L)
  | SetStateValidationParameter key policy =>
      mkLedger (values L) (<[key := policy]> (policies L))
  end.

Definition commit (ws : list Write) (L : Ledger) : Ledger :=
  foldl apply_write L ws.

(** The submitting transaction functions, by name and arguments. *)
Inductive Invocation :=
| InvAddClient (id : string) (initAmount : Z)
| InvPutTokens (id : string) (newAmount : Z)
| InvDeleteClient (id : string)
| InvContributeResource (id : string) (data : string)
| InvConsumeResource (id : string) (requiredLength : Z).

Definition dispatch (inv : Invocation) : Tx unit :=
  match inv with
  | InvAddClient id initAmount => AddClient id initAmount
  | InvPutTokens id newAmount => PutTokens id newAmount
  | InvDeleteClient id => DeleteClient id
  | InvContributeResource id data => ContributeResource id data
  | InvConsumeResource id requiredLength => ConsumeResource id requiredLength
  end.

Definition key_of (inv : Invocation) : string :=
  match inv with
  | InvAddClient id _ | InvPutTokens id _ | InvDeleteClient id
  | InvContributeResource id _ | InvConsumeResource id _ => id
  end.

(** A submitted transaction runs against the committed ledger; when it
    returns, its writes are applied together, and when it throws, nothing
    is. *)
Inductive Receipt :=
| Committed (L' : Ledger) (ev : option Event)
| Rejected (msg : string)
| Unread.

Definition submit (mspid : string) (inv : Invocation) (L : Ledger) : Receipt :=
  match dispatch inv (mkContext L mspid) noEffects with
  | Return _ fx => Committed (commit (writes fx) L) (event fx)
  | Throw msg => Rejected msg
  | Outside => Unread
  end.

(** An evaluated transaction function only reports its result; none of the
    three evaluated here asks for the caller's identity. *)
Inductive Answer (A : Type) :=
| Value (a : A)
| Failed (msg : string)
| Unknown.
Arguments Value {A} a.
Arguments Failed {A} msg.
Arguments Unknown {A}.

Definition evaluate {A} (tx : Tx A) (L : Ledger) : Answer A :=
  match tx (mkContext L "") noEffects with
  | Return a _ => Value a
  | Throw msg => Failed msg
  | Outside => Unknown
  end.

(** The ledger after a submission, committed or not. *)
Definition after (L : Ledger) (call : string * Invocation) : Ledger :=
  match submit call.1 call.2 L with
  | Committed L' _ => L'
  | _ => L
  end.

(** The ledger reached from the empty one by a sequence of submissions,
    each by the identity of the given organisation. *)
Definition replay (calls : list (string * Invocation)) : Ledger :=
  foldl after genesis calls.

(** *** Views of the ledger used in the statements below *)

(** The buffer [getState] hands out for a key. *)
Definition stored (L : Ledger) (id : string) : Buffer :=
  default "" (values L !! id).

(** The two writes common to [AddClient] and [PutTokens]. *)
Definition store_writes (mspid id : string) (amount : Z) : list Write :=
  [PutState id (JS.toString amount);
   SetStateValidationParameter id (newMemberPolicy [mspid])].

(** The ledger after the writes of a successful [AddClient] or [PutTokens]. *)
Definition record (L : Ledger) (mspid id : string) (amount : Z) : Ledger :=
  mkLedger (<[id := JS.toString amount]> (values L))
           (<[id := newMemberPolicy [mspid]]> (policies L)).

(** Every stored value was printed by [toString]. *)
Definition printed (L : Ledger) : Prop :=
  ∀ k bytes, values L !! k = Some bytes → ∃ n, bytes = JS.toString n.

(** ... and moreover from a non-negative amount. *)
Definition solvent (L : Ledger) : Prop :=
  ∀ k bytes, values L !! k = Some bytes → ∃ n, bytes = JS.toString n ∧ 0 ≤ n.

(** An amount given to [AddClient] or [PutTokens] that is not negative. *)
Definition amount_ok (inv : Invocation) : bool :=
  match inv with
  | InvAddClient _ amount | InvPutTokens _ amount => 0 <=? amount
  | _ => true
  end.

(** [DeleteClient], as opposed to the other four. *)
Definition is_delete (inv : Invocation) : bool :=
  match inv with InvDeleteClient _ => true | _ => false end.

(** The name under which each transaction function sets its last event. *)
Definition event_name (inv : Invocation) : string :=
  match inv with
  | InvAddClient _ _ => "AddClient"
  | InvPutTokens _ _ => "PutTokens"
  | InvDeleteClient _ => "DeleteClient"
  | InvContributeResource _ _ => "ContributeResource"
  | InvConsumeResource _ _ => "ConsumeResource"
  end.

End Chaincode.

(** ** The contract on doubles

    The transaction functions that compute with numbers, read with the
    arithmetic of doubles: an argument of type [number] arrives as the double
    nearest to the integer written by the caller, sums and differences are
    rounded, [Number] rounds the stored decimal text and the quotient by ten
    is rounded before [Math.ceil].  [toString] prints an integer of magnitude
    up to [2 ^ 53] with all its decimal digits; a larger double is printed
    with its shortest identifying digits, padded with zeros or, from
    [10 ^ 21] on, in exponent notation, and such a run is not followed
    ([Outside]).  [ClientExists], [DeleteClient] and the stub
    are those of [Chaincode]. *)

Module Chaincode64.
Import Chaincode.

Definition toString (n : Z) : Tx Buffer :=
  if Z.abs n <=? 2 ^ 53 then mret (JS.toString n) else outside.

Definition Number_ (bytes : Buffer) : Tx Z :=
  match JS.Number_ bytes with
  | Some n => mret (Double.round n)
  | None => outside
  end.

Definition evaluateObfuscation (data : string) : Z :=
  Double.ceil (Double.div10 (JS.length data)).

Definition evaluateDeduction (requiredLength : Z) : Z :=
  Double.ceil (Double.div10 requiredLength).

Definition AddClient (id : string) (initAmount : Z) : Tx unit :=
  exists_ ← ClientExists id;
  if (exists_ : bool) then throw (AlreadyExists id) else
  value ← toString initAmount;
  putState id value;;
  mspid ← getMSPID;
  setEndorsingOrgs id [mspid];;
  payload ← toString initAmount;
  setEvent "AddClient" payload.

Definition GetTokens (id : string) : Tx Z :=
  assetBytes ← getState id;
  if JS.length assetBytes =? 0 then throw (NotCreated id) else
  Number_ assetBytes.

Definition PutTokens (id : string) (newAmount : Z) : Tx unit :=
  exists_ ← ClientExists id;
  if negb exists_ then throw (DoesNotExist id) else
  value ← toString newAmount;
  putState id value;;
  mspid ← getMSPID;
  setEndorsingOrgs id [mspid];;
  payload ← toString newAmount;
  setEvent "PutTokens" payload.

Definition ContributeResource (id : string) (data : string) : Tx unit :=
  exists_ ← ClientExists id;
  if negb exists_ then throw (DoesNotExist id) else
  currentTokens ← GetTokens id;
  let newAmount := Double.round (currentTokens + evaluateObfuscation data) in
  PutTokens id newAmount;;
  payload ← toString newAmount;
  setEvent "ContributeResource" payload.

Definition ConsumeResource (id : string) (requiredLength : Z) : Tx unit :=
  exists_ ← ClientExists id;
  if negb exists_ then throw (DoesNotExist id) else
  currentTokens ← GetTokens id;
  let newAmount :=
    Double.round (currentTokens - evaluateDeduction requiredLength) in
  if newAmount <? 0 then throw (InsufficientBalance id) else
  PutTokens id newAmount;;
  payload ← toString newAmount;
  setEvent "ConsumeResource" payload.

(** The call of a transaction function with the arguments as the caller
    wrote them: a [number] parameter receives the nearest double. *)
Definition dispatch (inv : Invocation) : Tx unit :=
  match inv with
  | InvAddClient id initAmount => AddClient id (Double.round initAmount)
  | InvPutTokens id newAmount => PutTokens id (Double.round newAmount)
  | InvDeleteClient id => DeleteClient id
  | InvContributeResource id data => ContributeResource id data
  | InvConsumeResource id requiredLength =>
      ConsumeResource id (Double.round requiredLength)
  end.

Definition submit (mspid : string) (inv : Invocation) (L : Ledger) : Receipt :=
  match dispatch inv (mkContext L mspid) noEffects with
  | Return _ fx => Committed (commit (writes fx) L) (event fx)
  | Throw msg => Rejected msg
  | Outside => Unread
  end.

(** The ledger after a submission; none when the run was not followed. *)
Definition after (L : Ledger) (call : string * Invocation) : option Ledger :=
  match submit call.1 call.2 L with
  | Committed L' _ => Some L'
  | Rejected _ => Some L
  | Unread => None
  end.

(** The ledger reached from the empty one by a sequence of submissions, when
    every one of them was followed. *)
Definition replay (calls : list (string * Invocation)) : option Ledger :=
  foldl (λ state call, state ≫= λ L, after L call) (Some genesis) calls.

(** The receipt of a transaction that stores [amount] under [id] and sets
    the event [name]: the run is followed when [amount] prints with all its
    digits. *)
Definition stores (L : Ledger) (mspid id name : string) (amount : Z) : Receipt :=
  if Z.abs amount <=? 2 ^ 53
  then Committed (record L mspid id amount) (Some (name, JS.toString amount))
  else Unread.

End Chaincode64.

(** ** The submission client: [contract.ts] of the gateway application *)

Module Client.

Definition RETRIES : nat := 2.

(** [StatusCode.MVCC_READ_CONFLICT], a member of the gateway's enumeration of
    transaction validation codes. *)
Definition MVCC_READ_CONFLICT : Z := 11.

(** What a rejected promise carries: a [CommitError] with its status code,
    any other error, or [undefined]. *)
Inductive Exn :=
| CommitError (code : Z) (transactionId : string)
| OtherError (message : string)
| undefined.

Inductive Settled (T : Type) :=
| Fulfilled (value : T)
| Rejected (reason : Exn).
Arguments Fulfilled {T} value.
Arguments Rejected {T} reason.

(** A promise, once awaited, settles and leaves the network and ledger
    behind the gateway, the [World], in a new state. *)
Definition Promise (World T : Type) : Type := World → Settled T * World.

(** The part of the gateway's [Contract] that the class uses:
    [submit(name, { arguments })] and [evaluate(name)]. *)
Record Contract (World : Type) := mkContract {
  submit : string → list string → Promise World string;
  evaluate : string → list string → Promise World string
}.
Arguments submit {World} c name arguments : rename.
Arguments evaluate {World} c name arguments : rename.

Section AssetTransfer.
Context {World : Type}.

(** [const v = await p; k v], where a rejection of [p] propagates. *)
Definition await {T U} (p : Promise World T) (k : T → Promise World U)
    : Promise World U :=
  λ w, match p w with
       | (Fulfilled v, w') => k v w'
       | (Rejected err, w') => (Rejected err, w')
       end.

Definition resolve {T} (v : T) : Promise World T := λ w, (Fulfilled v, w).

(** [err instanceof CommitError && err.code === StatusCode.MVCC_READ_CONFLICT] *)
Definition is_read_conflict (err : Exn) : bool :=
  match err with
  | CommitError code _ => code =? MVCC_READ_CONFLICT
  | _ => false
  end.

(** The loop of [submitWithRetry] with [remaining = RETRIES - retryCount]
    iterations to go.  Leaving the loop, by [break] or by its condition,
    reaches [throw lastError]. *)
Fixpoint retry_loop {T} (submit : Promise World T) (remaining : nat)
    (lastError : Exn) : Promise World T :=
  match remaining with
  | O => λ w, (Rejected lastError, w)
  | S remaining' =>
      λ w, match submit w with
           | (Fulfilled v, w') => (Fulfilled v, w')
           | (Rejected err, w') =>
               if is_read_conflict err
               then retry_loop submit remaining' err w'
               else (Rejected err, w')
           end
  end.

Definition submitWithRetry {T} (submit : Promise World T) : Promise World T :=
  retry_loop submit RETRIES undefined.

(** The built-ins applied to what [evaluate] returns. *)
Variable decode : string → string.
Variable toLowerCase : string → string.
Variable JSON_parse_number : string → Settled Z.
Variable JSON_parse_assets : string → Settled (list (string * Z)).

Variable contract : Contract World.

Definition addClient (initAmount : Z) : Promise World unit :=
  await (submit contract "AddClient" [JS.toString initAmount])
        (λ _, resolve ()).

Definition getAllTokens : Promise World (list (string * Z)) :=
  await (evaluate contract "GetAllTokens" [])
        (λ result,
           if JS.length result =? 0 then resolve []
           else λ w, (JSON_parse_assets (decode result), w)).

Definition getTokens : Promise World Z :=
  await (evaluate contract "GetTokens" [])
        (λ result w, (JSON_parse_number (decode result), w)).

Definition putTokens (newAmount : Z) : Promise World unit :=
  await (submitWithRetry
           (submit contract "PutTokens" [JS.toString newAmount]))
        (λ _, resolve ()).

Definition deleteClient : Promise World unit :=
  await (submitWithRetry (submit contract "DeleteClient" []))
        (λ _, resolve ()).

Definition clientExists : Promise World bool :=
  await (evaluate contract "ClientExists" [])
        (λ result, resolve (bool_decide (toLowerCase (decode result) = "true"))).

Definition contributeResource (data : string) : Promise World unit :=
  await (submit contract "ContributeResource" [data])
        (λ _, resolve ()).

Definition consumeResource (requiredLength : Z) : Promise World unit :=
  await (submit contract "ConsumeResource" [JS.toString requiredLength])
        (λ _, resolve ()).

End AssetTransfer.

(** *** Observing the calls that reach the gateway *)

Inductive Call :=
| Submit (name : string) (arguments : list string)
| Evaluate (name : string) (arguments : list string).

(** The same contract, keeping a log of the calls made to it. *)
Definition logged {World} (c : Contract World) : Contract (World * list Call) :=
  mkContract (World * list Call)
    (λ name args '(w, log),
       let '(r, w') := submit c name args w in (r, (w', log ++ [Submit name args])))
    (λ name args '(w, log),
       let '(r, w') := evaluate c name args w in (r, (w', log ++ [Evaluate name args]))).

(** A promise that counts how often it is awaited. *)
Definition counted {World T} (p : Promise World T) : Promise (World * nat) T :=
  λ '(w, n), let '(r, w') := p w in (r, (w', S n)).

(** A gateway that settles successive submissions as a script says and
    fulfils with the empty result once the script is used up; evaluations
    are fulfilled with the empty result. *)
Definition scripted : Contract (list (Settled string)) :=
  mkContract (list (Settled string))
    (λ _ _ script,
       match script with
       | [] => (Fulfilled "", [])
       | r :: script' => (r, script')
       end)
    (λ _ _ script, (Fulfilled "", script)).

(** The log after one or two submissions of [call], the second one made
    exactly when the first was rejected with a read conflict. *)
Definition retried_log {World}
    (first : Settled string * World) (call : Call) : list Call :=
  match first with
  | (Rejected err, _) => if is_read_conflict err then [call; call] else [call]
  | _ => [call]
  end.

End Client.

(** ** The two scripts that drive the contract through the gateway

    Both obtain the contract from a gateway opened when the module is loaded
    and wrap each [submitTransaction] in [try]/[catch], printing what was
    caught with [console.error].  [submitTransaction(name, ...args)] is the
    gateway's [submit] with those arguments; the console is the list of
    values printed so far. *)

Module Scripts.
Import Client.

Definition Console := list Exn.

(** [try { await p } catch (err) { console.error(err) }] *)
Definition try_catch_log {World} (p : Promise World string)
    : Promise (World * Console) unit :=
  λ '(w, console),
    match p w with
    | (Fulfilled _, w') => (Fulfilled (), (w', console))
    | (Rejected err, w') => (Fulfilled (), (w', console ++ [err]))
    end.

(** The script with [Contribute] and [Consume]. *)
Definition Contribute {World} (contract : Contract World) (id data : string)
    : Promise (World * Console) unit :=
  try_catch_log (submit contract "ContributeResource" [id; data]).

Definition Consume {World} (contract : Contract World) (id : string)
    (requiredLength : Z) : Promise (World * Console) unit :=
  try_catch_log
    (submit contract "ConsumeResource" [id; JS.toString requiredLength]).

(** The script with [ContributeResource], [ConsumeResource], [AddClient] and
    [DeleteClient], which hand their arguments on as they are. *)
Definition ContributeResource {World} (contract : Contract World)
    (id amount : string) : Promise (World * Console) unit :=
  try_catch_log (submit contract "ContributeResource" [id; amount]).

Definition ConsumeResource {World} (contract : Contract World)
    (id amount : string) : Promise (World * Console) unit :=
  try_catch_log (submit contract "ConsumeResource" [id; amount]).

Definition AddClient {World} (contract : Contract World)
    (id amount : string) : Promise (World * Console) unit :=
  try_catch_log (submit contract "AddClient" [id; amount]).

Definition DeleteClient {World} (contract : Contract World)
    (id amount : string) : Promise (World * Console) unit :=
  try_catch_log (submit contract "DeleteClient" [id]).

End Scripts.

(** ** Facts about the JavaScript primitives *)

Section JSFacts.

Lemma toString_nonempty (n : Z) : JS.toString n ≠ "".
Proof.
  unfold JS.toString.
  destruct n as [|p|p]; simpl; try discriminate.
  pose proof (DecimalPos.Unsigned.to_uint_nonnil p) as Hp.
  destruct (Pos.to_uint p); simpl; congruence.
Qed.

Lemma length_zero_iff (s : string) : JS.length s = 0 ↔ s = "".
Proof.
  unfold JS.length. destruct s; simpl; split; intros H; try done; lia.
Qed.

Lemma length_nonneg (s : string) : 0 ≤ JS.length s.
Proof. unfold JS.length. lia. Qed.

Lemma toString_length (n : Z) : 0 < JS.length (JS.toString n).
Proof.
  pose proof (length_nonneg (JS.toString n)).
  pose proof (toString_nonempty n) as Hne.
  rewrite <- length_zero_iff in Hne. lia.
Qed.

(** Reading back what [toString] printed. *)
Lemma Number_toString (n : Z) : JS.Number_ (JS.toString n) = Some n.
Proof.
  unfold JS.Number_, JS.toString.
  rewrite NilZero.isi.
  - simpl. by rewrite DecimalZ.of_to.
  - destruct n as [|p|p]; simpl; try discriminate.
    intros [= Hp]. by apply DecimalPos.Unsigned.to_uint_nonnil in Hp.
  - destruct n as [|p|p]; simpl; try discriminate.
    intros [= Hp]. by apply DecimalPos.Unsigned.to_uint_nonnil in Hp.
Qed.

Lemma toString_inj (m n : Z) : JS.toString m = JS.toString n → m = n.
Proof.
  intros H. apply (f_equal JS.Number_) in H.
  rewrite !Number_toString in H. congruence.
Qed.

(** [Math.ceil(n / 10)] in integer arithmetic. *)
Lemma Math_ceil_div10 (n : Z) :
  JS.Math_ceil (inject_Z n / 10) = (n + 9) `div` 10.
Proof.
  unfold JS.Math_ceil, Qceiling, Qfloor, Qdiv, Qmult, Qinv, Qopp, inject_Z.
  simpl. rewrite Z.mul_1_r. change (Z.pos (1 * 10)) with 10.
  pose proof (Z.div_mod (- n) 10 ltac:(lia)).
  pose proof (Z.mod_pos_bound (- n) 10 ltac:(lia)).
  pose proof (Z.div_mod (n + 9) 10 ltac:(lia)).
  pose proof (Z.mod_pos_bound (n + 9) 10 ltac:(lia)).
  lia.
Qed.

(** It is the least integer [c] with [n ≤ 10 * c]. *)
Lemma Math_ceil_div10_spec (n c : Z) :
  JS.Math_ceil (inject_Z n / 10) = c ↔ 10 * (c - 1) < n ≤ 10 * c.
Proof.
  rewrite Math_ceil_div10.
  pose proof (Z.div_mod (n + 9) 10 ltac:(lia)).
  pose proof (Z.mod_pos_bound (n + 9) 10 ltac:(lia)).
  lia.
Qed.

End JSFacts.

(** ** What each transaction function does in a given context *)

Section Runs.
Import Chaincode.

Lemma ClientExists_run id ctx fx :
  ClientExists id ctx fx = Return (0 <? JS.length (stored (world ctx) id)) fx.
Proof. reflexivity. Qed.

Lemma GetTokens_run id ctx fx :
  GetTokens id ctx fx =
    if JS.length (stored (world ctx) id) =? 0 then Throw (NotCreated id)
    else match JS.Number_ (stored (world ctx) id) with
         | Some n => Return n fx
         | None => Outside
         end.
Proof.
  unfold GetTokens, Number_, mbind, Tx_bind, getState, stored. simpl.
  destruct (_ =? 0); [done|]. by destruct (JS.Number_ _).
Qed.

Lemma AddClient_run id initAmount ctx fx :
  AddClient id initAmount ctx fx =
    if 0 <? JS.length (stored (world ctx) id) then Throw (AlreadyExists id)
    else Return () (mkEffects (writes fx ++ store_writes (MSPID ctx) id initAmount)
                              (Some ("AddClient", JS.toString initAmount))).
Proof.
  unfold AddClient, mbind, Tx_bind. rewrite ClientExists_run.
  destruct (0 <? _); [done|]. simpl. by rewrite <- app_assoc.
Qed.

Lemma PutTokens_run id newAmount ctx fx :
  PutTokens id newAmount ctx fx =
    if 0 <? JS.length (stored (world ctx) id)
    then Return () (mkEffects (writes fx ++ store_writes (MSPID ctx) id newAmount)
                              (Some ("PutTokens", JS.toString newAmount)))
    else Throw (DoesNotExist id).
Proof.
  unfold PutTokens, mbind, Tx_bind. rewrite ClientExists_run.
  destruct (0 <? _); [|done]. simpl. by rewrite <- app_assoc.
Qed.

Lemma DeleteClient_run id ctx fx :
  DeleteClient id ctx fx =
    if JS.length (stored (world ctx) id) =? 0 then Throw (NotCreated id)
    else Return () (mkEffects (writes fx ++ [DeleteState id])
                              (Some ("DeleteClient", stored (world ctx) id))).
Proof.
  unfold DeleteClient, mbind, Tx_bind, getState, stored. simpl.
  by destruct (_ =? 0).
Qed.

Lemma ContributeResource_run id data ctx fx :
  ContributeResource id data ctx fx =
    if 0 <? JS.length (stored (world ctx) id)
    then match JS.Number_ (stored (world ctx) id) with
         | Some currentTokens =>
             let newAmount := currentTokens + evaluateObfuscation data in
             Return () (mkEffects (writes fx ++ store_writes (MSPID ctx) id newAmount)
                                  (Some ("ContributeResource", JS.toString newAmount)))
         | None => Outside
         end
    else Throw (DoesNotExist id).
Proof.
  unfold ContributeResource, mbind, Tx_bind.
  rewrite ClientExists_run.
  destruct (0 <? _) eqn:Hex; [|done]. cbn [negb].
  rewrite GetTokens_run.
  apply Z.ltb_lt in Hex. destruct (_ =? 0) eqn:Hz; [apply Z.eqb_eq in Hz; lia|].
  destruct (JS.Number_ _); [|done].
  rewrite PutTokens_run.
  by destruct (0 <? _) eqn:Hex'; [|apply Z.ltb_ge in Hex'; lia].
Qed.

Lemma ConsumeResource_run id requiredLength ctx fx :
  ConsumeResource id requiredLength ctx fx =
    if 0 <? JS.length (stored (world ctx) id)
    then match JS.Number_ (stored (world ctx) id) with
         | Some currentTokens =>
             let newAmount := currentTokens - evaluateDeduction requiredLength in
             if newAmount <? 0 then Throw (InsufficientBalance id)
             else Return () (mkEffects (writes fx ++ store_writes (MSPID ctx) id newAmount)
                                       (Some ("ConsumeResource", JS.toString newAmount)))
         | None => Outside
         end
    else Throw (DoesNotExist id).
Proof.
  unfold ConsumeResource, mbind, Tx_bind.
  rewrite ClientExists_run.
  destruct (0 <? _) eqn:Hex; [|done]. cbn [negb].
  rewrite GetTokens_run.
  apply Z.ltb_lt in Hex. destruct (_ =? 0) eqn:Hz; [apply Z.eqb_eq in Hz; lia|].
  destruct (JS.Number_ _); [|done].
  cbn zeta. destruct (_ <? 0); [done|].
  rewrite PutTokens_run.
  by destruct (0 <? _) eqn:Hex'; [|apply Z.ltb_ge in Hex'; lia].
Qed.

End Runs.

(** ** Ledgers: stored balances and the effect of a commit *)

Section Ledgers.
Import Chaincode.

Lemma commit_store_writes L mspid id amount :
  commit (store_writes mspid id amount) L = record L mspid id amount.
Proof. reflexivity. Qed.

Lemma stored_record_eq L mspid id amount :
  stored (record L mspid id amount) id = JS.toString amount.
Proof. unfold stored, record. simpl. by rewrite lookup_insert_eq. Qed.

Lemma stored_record_ne L mspid id amount id' :
  id ≠ id' → stored (record L mspid id amount) id' = stored L id'.
Proof. intros Hne. unfold stored, record. simpl. by rewrite lookup_insert_ne. Qed.

Lemma newMemberPolicy_single mspid :
  newMemberPolicy [mspid] = {[ mspid := MEMBER ]}.
Proof. reflexivity. Qed.

(** [GetTokens] answers [b] exactly when a non-empty buffer that reads as
    [b] is stored under the key. *)
Lemma GetTokens_Value L id b :
  evaluate (GetTokens id) L = Value b ↔
  stored L id ≠ "" ∧ JS.Number_ (stored L id) = Some b.
Proof.
  unfold evaluate. rewrite GetTokens_run. simpl.
  destruct (_ =? 0) eqn:Hz.
  - apply Z.eqb_eq, length_zero_iff in Hz. split; [done|]. by intros [? _].
  - apply Z.eqb_neq in Hz. rewrite length_zero_iff in Hz.
    destruct (JS.Number_ _) as [n|].
    + split; [by intros [= ->]|by intros [_ [= ->]]].
    + split; [done|by intros [_ ?]].
Qed.

Lemma ClientExists_Value L id :
  evaluate (ClientExists id) L = Value (bool_decide (stored L id ≠ "")).
Proof.
  unfold evaluate. rewrite ClientExists_run. simpl. f_equal.
  pose proof (length_nonneg (stored L id)) as Hlen.
  pose proof (length_zero_iff (stored L id)) as Hzero.
  case_bool_decide as Hne.
  - apply Z.ltb_lt. destruct (decide (JS.length (stored L id) = 0)) as [Hz|]; [|lia].
    by apply Hzero in Hz.
  - apply Z.ltb_ge. apply Hzero in Hne. lia.
Qed.

Lemma present_length L id b :
  evaluate (GetTokens id) L = Value b → (0 <? JS.length (stored L id)) = true.
Proof.
  rewrite GetTokens_Value. intros [Hne _]. apply Z.ltb_lt.
  pose proof (length_nonneg (stored L id)).
  rewrite <- length_zero_iff in Hne. lia.
Qed.

Lemma GetTokens_record L mspid id amount :
  evaluate (GetTokens id) (record L mspid id amount) = Value amount.
Proof.
  apply GetTokens_Value. rewrite stored_record_eq.
  split; [apply toString_nonempty|apply Number_toString].
Qed.


Lemma printed_stored L id :
  printed L → stored L id = "" ∨ ∃ n, stored L id = JS.toString n.
Proof.
  intros HL. unfold stored. destruct (values L !! id) eqn:Hk; [|by left].
  right. by apply (HL id).
Qed.

Lemma printed_record L mspid id amount :
  printed L → printed (record L mspid id amount).
Proof.
  intros HL k bytes. unfold record. simpl.
  rewrite lookup_insert. case_decide; [|by apply HL].
  intros [= <-]. eauto.
Qed.

Lemma solvent_record L mspid id amount :
  0 ≤ amount → solvent L → solvent (record L mspid id amount).
Proof.
  intros Hpos HL k bytes. unfold record. simpl.
  rewrite lookup_insert. case_decide; [|by apply HL].
  intros [= <-]. eauto.
Qed.

Lemma printed_delete L id :
  printed L → printed (commit [DeleteState id] L).
Proof.
  intros HL k bytes. simpl. rewrite lookup_delete.
  case_decide; [done|]. by apply HL.
Qed.

Lemma solvent_delete L id :
  solvent L → solvent (commit [DeleteState id] L).
Proof.
  intros HL k bytes. simpl. rewrite lookup_delete.
  case_decide; [done|]. by apply HL.
Qed.

Lemma printed_genesis : printed genesis.
Proof. intros k bytes. simpl. by rewrite lookup_empty. Qed.

Lemma solvent_genesis : solvent genesis.
Proof. intros k bytes. simpl. by rewrite lookup_empty. Qed.

Lemma evaluateObfuscation_nonneg data : 0 ≤ evaluateObfuscation data.
Proof.
  unfold evaluateObfuscation. rewrite Math_ceil_div10.
  pose proof (length_nonneg data). apply Z.div_pos; lia.
Qed.

End Ledgers.

(** ** Submissions *)

Section Submissions.
Import Chaincode.

Lemma submit_AddClient L mspid id initAmount :
  submit mspid (InvAddClient id initAmount) L =
    if 0 <? JS.length (stored L id) then Rejected (AlreadyExists id)
    else Committed (record L mspid id initAmount)
                   (Some ("AddClient", JS.toString initAmount)).
Proof.
  unfold submit, dispatch. rewrite AddClient_run. simpl.
  by destruct (0 <? _).
Qed.

Lemma submit_PutTokens L mspid id newAmount :
  submit mspid (InvPutTokens id newAmount) L =
    if 0 <? JS.length (stored L id)
    then Committed (record L mspid id newAmount)
                   (Some ("PutTokens", JS.toString newAmount))
    else Rejected (DoesNotExist id).
Proof.
  unfold submit, dispatch. rewrite PutTokens_run. simpl.
  by destruct (0 <? _).
Qed.

Lemma submit_DeleteClient L mspid id :
  submit mspid (InvDeleteClient id) L =
    if JS.length (stored L id) =? 0 then Rejected (NotCreated id)
    else Committed (commit [DeleteState id] L)
                   (Some ("DeleteClient", stored L id)).
Proof.
  unfold submit, dispatch. rewrite DeleteClient_run. simpl.
  by destruct (_ =? 0).
Qed.

Lemma submit_ContributeResource L mspid id data :
  submit mspid (InvContributeResource id data) L =
    if 0 <? JS.length (stored L id)
    then match JS.Number_ (stored L id) with
         | Some currentTokens =>
             let newAmount := currentTokens + evaluateObfuscation data in
             Committed (record L mspid id newAmount)
                       (Some ("ContributeResource", JS.toString newAmount))
         | None => Unread
         end
    else Rejected (DoesNotExist id).
Proof.
  unfold submit, dispatch. rewrite ContributeResource_run. simpl.
  destruct (0 <? _); [|done]. by destruct (JS.Number_ _).
Qed.

Lemma submit_ConsumeResource L mspid id requiredLength :
  submit mspid (InvConsumeResource id requiredLength) L =
    if 0 <? JS.length (stored L id)
    then match JS.Number_ (stored L id) with
         | Some currentTokens =>
             let newAmount := currentTokens - evaluateDeduction requiredLength in
             if newAmount <? 0 then Rejected (InsufficientBalance id)
             else Committed (record L mspid id newAmount)
                            (Some ("ConsumeResource", JS.toString newAmount))
         | None => Unread
         end
    else Rejected (DoesNotExist id).
Proof.
  unfold submit, dispatch. rewrite ConsumeResource_run. simpl.
  destruct (0 <? _); [|done]. destruct (JS.Number_ _); [|done].
  by destruct (_ <? 0).
Qed.

Lemma replay_snoc calls call :
  replay (calls ++ [call]) = after (replay calls) call.
Proof. unfold replay. by rewrite foldl_snoc. Qed.

Lemma after_printed L call : printed L → printed (after L call).
Proof.
  intros HL. destruct call as [mspid inv]. unfold after. simpl.
  destruct inv as [id a|id a|id|id data|id n].
  - rewrite submit_AddClient. destruct (0 <? _); [done|].
    by apply printed_record.
  - rewrite submit_PutTokens. destruct (0 <? _); [|done].
    by apply printed_record.
  - rewrite submit_DeleteClient. destruct (_ =? 0); [done|].
    by apply printed_delete.
  - rewrite submit_ContributeResource. destruct (0 <? _); [|done].
    destruct (JS.Number_ _); [|done]. by apply printed_record.
  - rewrite submit_ConsumeResource. destruct (0 <? _); [|done].
    destruct (JS.Number_ _); [|done]. cbn zeta.
    destruct (_ <? 0); [done|]. by apply printed_record.
Qed.

Lemma replay_printed calls : printed (replay calls).
Proof.
  induction calls as [|call calls IH] using rev_ind.
  - apply printed_genesis.
  - rewrite replay_snoc. by apply after_printed.
Qed.

Lemma solvent_stored L id n :
  solvent L → stored L id ≠ "" → JS.Number_ (stored L id) = Some n → 0 ≤ n.
Proof.
  intros HL Hne Hn. unfold stored in *.
  destruct (values L !! id) as [bytes|] eqn:Hk; [|done]. simpl in *.
  destruct (HL id bytes Hk) as (m & -> & Hm).
  rewrite Number_toString in Hn. congruence.
Qed.

Lemma after_solvent L call :
  amount_ok call.2 = true → solvent L → solvent (after L call).
Proof.
  intros Hok HL. destruct call as [mspid inv]. unfold after. simpl in *.
  destruct inv as [id a|id a|id|id data|id n]; simpl in Hok.
  - rewrite submit_AddClient. destruct (0 <? _); [done|].
    apply solvent_record; [lia|done].
  - rewrite submit_PutTokens. destruct (0 <? _); [|done].
    apply solvent_record; [lia|done].
  - rewrite submit_DeleteClient. destruct (_ =? 0); [done|].
    by apply solvent_delete.
  - rewrite submit_ContributeResource. destruct (0 <? _) eqn:Hex; [|done].
    destruct (JS.Number_ _) as [b|] eqn:Hb; [|done].
    apply solvent_record; [|done].
    pose proof (evaluateObfuscation_nonneg data).
    assert (0 ≤ b); [|lia].
    apply (solvent_stored L id); [done| |done].
    intros Hempty. rewrite Hempty in Hex. done.
  - rewrite submit_ConsumeResource. destruct (0 <? _); [|done].
    destruct (JS.Number_ _); [|done]. cbn zeta.
    destruct (_ <? 0) eqn:Hneg; [done|].
    apply solvent_record; [|done]. by apply Z.ltb_ge in Hneg.
Qed.

Lemma replay_solvent calls :
  forallb (λ call, amount_ok call.2) calls = true → solvent (replay calls).
Proof.
  induction calls as [|call calls IH] using rev_ind.
  - intros _. apply solvent_genesis.
  - rewrite forallb_app. simpl. intros [H1 [H2 _]%andb_prop]%andb_prop.
    rewrite replay_snoc. apply after_solvent; auto.
Qed.

(** On a reachable ledger no run leaves the integers: every submission is
    committed or rejected, and [GetTokens] answers or fails. *)
Lemma printed_Number L id :
  printed L → stored L id ≠ "" → ∃ n, JS.Number_ (stored L id) = Some n.
Proof.
  intros HL Hne. destruct (printed_stored L id HL) as [?|[n Hn]]; [done|].
  exists n. rewrite Hn. apply Number_toString.
Qed.

Lemma submit_read L mspid inv : printed L → submit mspid inv L ≠ Unread.
Proof.
  intros HL. destruct inv as [id a|id a|id|id data|id n].
  - rewrite submit_AddClient. by destruct (0 <? _).
  - rewrite submit_PutTokens. by destruct (0 <? _).
  - rewrite submit_DeleteClient. by destruct (_ =? 0).
  - rewrite submit_ContributeResource. destruct (0 <? _) eqn:Hex; [|done].
    destruct (printed_Number L id HL) as [b ->]; [|done].
    intros Hempty. by rewrite Hempty in Hex.
  - rewrite submit_ConsumeResource. destruct (0 <? _) eqn:Hex; [|done].
    destruct (printed_Number L id HL) as [b ->].
    + intros Hempty. by rewrite Hempty in Hex.
    + cbn zeta. by destruct (_ <? 0).
Qed.

Lemma replay_submit_read calls mspid inv :
  submit mspid inv (replay calls) ≠ Unread.
Proof. apply submit_read, replay_printed. Qed.

Lemma replay_GetTokens_read calls id :
  evaluate (GetTokens id) (replay calls) ≠ Unknown.
Proof.
  unfold evaluate. rewrite GetTokens_run. simpl.
  destruct (_ =? 0) eqn:Hz; [done|].
  destruct (printed_Number (replay calls) id (replay_printed calls)) as [b ->];
    [|done].
  intros Hempty. by rewrite Hempty in Hz.
Qed.

End Submissions.

(** ** Properties of the contract *)

Section ContractProperties.
Import Chaincode.


(** C3, as stated, fails for [DeleteClient]: it deletes the key and sets an
    event, and never calls [setEndorsingOrgs].  After [Org2MSP] deletes an
    account created by [Org1MSP], the key's policy does not name
    [Org2MSP]. *)
Lemma policy_reattached_refuted :
  ¬ (∀ mspid inv L L' ev,
       submit mspid inv L = Committed L' ev →
       policies L' !! key_of inv = Some (newMemberPolicy [mspid])).
Proof.
  intros H.
  specialize (H "Org2MSP" (InvDeleteClient "alice")
                (replay [("Org1MSP", InvAddClient "alice" 5)])).
  vm_compute in H. specialize (H _ _ eq_refl).
  discriminate H.
Qed.

(** C3, amended: every mutating operation other than [DeleteClient]
    ([AddClient], [PutTokens], [ContributeResource], [ConsumeResource]),
    when it succeeds, issues in one and the same transaction the write of
    the new balance followed by the attachment of the member policy of the
    invoking identity's organisation to the affected key, and the committed
    ledger carries that policy for the key. *)
Theorem policy_reattached_except_delete mspid inv L L' ev :
  is_delete inv = false →
  submit mspid inv L = Committed L' ev →
  (∃ amount fx,
      dispatch inv (mkContext L mspid) noEffects = Return () fx
      ∧ writes fx = [PutState (key_of inv) (JS.toString amount);
                     SetStateValidationParameter (key_of inv)
                       (newMemberPolicy [mspid])]
      ∧ L' = commit (writes fx) L)
  ∧ policies L' !! key_of inv = Some {[ mspid := MEMBER ]}.
Proof.
  intros Hdel Hsub.
  assert (∃ amount fx,
             dispatch inv (mkContext L mspid) noEffects = Return () fx
             ∧ writes fx = store_writes mspid (key_of inv) amount
             ∧ L' = commit (writes fx) L) as (amount & fx & Hrun & Hw & ->).
  { unfold submit in Hsub.
    destruct inv as [id a|id a|id|id data|id n]; [| |done| |];
      simpl in Hsub |- *.
    - rewrite AddClient_run in Hsub |- *. simpl in *.
      destruct (0 <? _); [done|]. injection Hsub as <- _. by eexists a, _.
    - rewrite PutTokens_run in Hsub |- *. simpl in *.
      destruct (0 <? _); [|done]. injection Hsub as <- _. by eexists a, _.
    - rewrite ContributeResource_run in Hsub |- *. simpl in *.
      destruct (0 <? _); [|done]. destruct (JS.Number_ _) as [b|]; [|done].
      injection Hsub as <- _. by eexists (b + evaluateObfuscation data), _.
    - rewrite ConsumeResource_run in Hsub |- *. simpl in *.
      destruct (0 <? _); [|done]. destruct (JS.Number_ _) as [b|]; [|done].
      destruct (_ <? 0); [done|].
      injection Hsub as <- _. by eexists (b - evaluateDeduction n), _. }
  split; [by exists amount, fx|].
  rewrite Hw, commit_store_writes. simpl. by rewrite lookup_insert_eq.
Qed.

Lemma policy_reattached_except_delete_witness :
  policies (after (replay [("Org1MSP", InvAddClient "alice" 5)])
                  ("Org2MSP", InvPutTokens "alice" 7)) !! "alice"
    = Some {[ "Org2MSP" := MEMBER ]}.
Proof.
  apply (policy_reattached_except_delete "Org2MSP" (InvPutTokens "alice" 7)
           (replay [("Org1MSP", InvAddClient "alice" 5)]) _
           (Some ("PutTokens", "7")));
    vm_compute; reflexivity.
Defined.



(** C10: for an existing account with balance [b],
    [ContributeResource(id, "")] commits and the balance read back is [b];
    the transaction still writes the value, attaches the policy of the
    invoker's organisation and sets the [ContributeResource] event. *)
Theorem ContributeResource_empty_keeps_balance L mspid id b :
  evaluate (GetTokens id) L = Value b →
  evaluateObfuscation "" = 0
  ∧ ContributeResource id "" (mkContext L mspid) noEffects =
      Return () (mkEffects
                   [PutState id (JS.toString b);
                    SetStateValidationParameter id (newMemberPolicy [mspid])]
                   (Some ("ContributeResource", JS.toString b)))
  ∧ submit mspid (InvContributeResource id "") L =
      Committed (record L mspid id b)
                (Some ("ContributeResource", JS.toString b))
  ∧ evaluate (GetTokens id) (after L (mspid, InvContributeResource id "")) =
      Value b.
Proof.
  intros Hb.
  assert (evaluateObfuscation "" = 0) as Hcost by reflexivity.
  pose proof (present_length L id b Hb) as Hlen.
  apply GetTokens_Value in Hb as [_ Hnum].
  assert (submit mspid (InvContributeResource id "") L =
            Committed (record L mspid id b)
                      (Some ("ContributeResource", JS.toString b))) as Hsub.
  { rewrite submit_ContributeResource, Hlen, Hnum. cbn zeta.
    by rewrite Hcost, Z.add_0_r. }
  split; [done|]. split.
  - rewrite ContributeResource_run. simpl. rewrite Hlen, Hnum. cbn zeta.
    by rewrite Hcost, Z.add_0_r.
  - split; [done|]. unfold after. simpl. rewrite Hsub. apply GetTokens_record.
Qed.

Lemma ContributeResource_empty_keeps_balance_witness :
  evaluate (GetTokens "alice")
    (after (replay [("Org1MSP", InvAddClient "alice" 5)])
           ("Org1MSP", InvContributeResource "alice" "")) = Value 5.
Proof.
  apply (ContributeResource_empty_keeps_balance
           (replay [("Org1MSP", InvAddClient "alice" 5)]) "Org1MSP" "alice" 5).
  vm_compute; reflexivity.
Defined.

End ContractProperties.

(** ** The listing of all accounts *)

Section Listing.
Import Chaincode.

#[local] Instance key_le_total : Total key_le.
Proof. intros x y. unfold key_le. apply (total String.le). Qed.

#[local] Instance key_le_trans : Transitive key_le.
Proof. intros x y z. unfold key_le. apply transitivity. Qed.

(** On buffers printed by [toString] the loop of [GetAllTokens] runs to its
    end and appends one entry for each result, in order. *)
Lemma collect_printed results :
  Forall (λ kv : string * Buffer, ∃ n, kv.2 = JS.toString n) results →
  ∀ assets ctx fx, ∃ new,
    collect results assets ctx fx = Return (assets ++ new) fx
    ∧ Chaincode.id <$> new = results.*1
    ∧ ∀ k n, mkAsset k n ∈ new ↔ (k, JS.toString n) ∈ results.
Proof.
  induction 1 as [|[k0 bytes] rest [n0 Hn0] _ IH]; intros assets ctx fx.
  - exists []. simpl. rewrite app_nil_r. split; [done|]. split; [done|].
    intros k n. by rewrite !elem_of_nil.
  - simpl in Hn0. subst bytes.
    destruct (IH (assets ++ [mkAsset k0 n0]) ctx fx) as (new & Hrun & Hids & Hin).
    exists (mkAsset k0 n0 :: new). split; [|split].
    + simpl. unfold mbind, Tx_bind, Number_. simpl.
      rewrite Number_toString. simpl. rewrite Hrun. by rewrite <- app_assoc.
    + by rewrite !fmap_cons, Hids.
    + intros k n. rewrite !elem_of_cons, Hin. split.
      * intros [[= -> ->]|?]; [by left|by right].
      * intros [[= -> Heq]|?]; [|by right].
        left. by rewrite (toString_inj _ _ Heq).
Qed.

Lemma GetAllTokens_printed L :
  printed L →
  ∃ assets, evaluate GetAllTokens L = Value assets
    ∧ StronglySorted String.le (Chaincode.id <$> assets)
    ∧ NoDup (Chaincode.id <$> assets)
    ∧ ∀ k n, mkAsset k n ∈ assets ↔ values L !! k = Some (JS.toString n).
Proof.
  intros HL.
  set (results := merge_sort key_le (map_to_list (values L))).
  assert (results ≡ₚ map_to_list (values L)) as Hperm
    by apply merge_sort_Permutation.
  assert (Forall (λ kv : string * Buffer, ∃ n, kv.2 = JS.toString n) results)
    as Hall.
  { rewrite Hperm. apply Forall_forall. intros [k bytes] Hk.
    apply elem_of_map_to_list in Hk. by apply (HL k). }
  destruct (collect_printed results Hall [] (mkContext L "") noEffects)
    as (assets & Hrun & Hids & Hin).
  exists assets. split; [|split; [|split]].
  - unfold evaluate, GetAllTokens, mbind, Tx_bind, getStateByRange_all.
    simpl. fold results. by rewrite Hrun.
  - rewrite Hids. apply (StronglySorted_fmap fst key_le); [done|].
    apply StronglySorted_merge_sort; apply _.
  - rewrite Hids, Hperm. apply NoDup_fst_map_to_list.
  - intros k n. rewrite Hin, Hperm. apply elem_of_map_to_list.
Qed.

Lemma stored_toString L k n :
  values L !! k = Some (JS.toString n) → stored L k = JS.toString n.
Proof. unfold stored. by intros ->. Qed.

(** C7: on every ledger reached from the empty one, [GetAllTokens] returns
    (it neither throws nor reads a value it cannot parse) a list that is in
    the order of the keys, names no key twice, has the entry [(i, b)]
    exactly when account [i] is present with balance [b], and so names
    exactly the keys for which [ClientExists] holds. *)
Theorem GetAllTokens_lists_present_accounts (calls : list (string * Invocation)) :
  ∃ assets, evaluate GetAllTokens (replay calls) = Value assets
    ∧ StronglySorted String.le (Chaincode.id <$> assets)
    ∧ NoDup (Chaincode.id <$> assets)
    ∧ (∀ i b, mkAsset i b ∈ assets ↔
              evaluate (GetTokens i) (replay calls) = Value b)
    ∧ (∀ i, i ∈ Chaincode.id <$> assets ↔
            evaluate (ClientExists i) (replay calls) = Value true).
Proof.
  pose proof (replay_printed calls) as HL.
  destruct (GetAllTokens_printed _ HL) as (assets & Hrun & Hsorted & Hnodup & Hin).
  assert (∀ i b, mkAsset i b ∈ assets ↔
                 evaluate (GetTokens i) (replay calls) = Value b) as Hbal.
  { intros i b. rewrite Hin, GetTokens_Value. split.
    - intros Hk. rewrite (stored_toString _ _ _ Hk).
      split; [apply toString_nonempty|apply Number_toString].
    - intros [Hne Hnum]. unfold stored in *.
      destruct (values (replay calls) !! i) as [bytes|] eqn:Hk; [|done].
      simpl in *. destruct (HL i bytes Hk) as [n ->].
      rewrite Number_toString in Hnum. congruence. }
  exists assets. repeat (split; [done|]).
  intros i. rewrite ClientExists_Value, list_elem_of_fmap. split.
  - intros ([k n] & -> & Hmem). simpl. apply Hin in Hmem.
    rewrite (stored_toString _ _ _ Hmem).
    f_equal. apply bool_decide_eq_true. apply toString_nonempty.
  - intros [= Hne%bool_decide_eq_true].
    destruct (printed_stored _ i HL) as [?|[n Hn]]; [done|].
    exists (mkAsset i n). split; [done|]. apply Hbal, GetTokens_Value.
    rewrite Hn. split; [apply toString_nonempty|apply Number_toString].
Qed.

End Listing.

(** ** Properties of the submission client *)

Section ClientProperties.
Import Client.

(** C2, as stated, fails for the contribute and consume operations: the
    class submits them directly.  Behind a gateway that reports a read
    conflict for the first submission and would accept the second,
    [contributeResource] is rejected with the conflict, where the retry
    wrapper would have made the second attempt. *)
Lemma retry_on_contribute_refuted :
  ¬ (∀ World (c : Contract World) data w,
       contributeResource c data w =
         await (submitWithRetry (submit c "ContributeResource" [data]))
               (λ _, resolve ()) w).
Proof.
  intros H.
  specialize (H _ scripted "abc"
                [Rejected (CommitError MVCC_READ_CONFLICT "tx1"); Fulfilled ""]).
  vm_compute in H. discriminate H.
Qed.

(** C2, amended: [putTokens] and [deleteClient] submit through the retry
    wrapper, and the gateway sees their submission once, or twice when the
    first attempt met a read conflict.  [addClient], [contributeResource]
    and [consumeResource] submit exactly once whatever the outcome, and
    [getTokens], [clientExists] and [getAllTokens] make one [evaluate] call
    and no submission. *)
Theorem retry_wraps_putTokens_deleteClient_only {World}
    (c : Contract World) (w : World)
    (decode toLowerCase : string → string)
    (JSON_parse_number : string → Settled Z)
    (JSON_parse_assets : string → Settled (list (string * Z))) :
  (∀ v, putTokens c v w =
          await (submitWithRetry (submit c "PutTokens" [JS.toString v]))
                (λ _, resolve ()) w
        ∧ (putTokens (logged c) v (w, [])).2.2 =
            retried_log (submit c "PutTokens" [JS.toString v] w)
                        (Submit "PutTokens" [JS.toString v]))
  ∧ (deleteClient c w =
       await (submitWithRetry (submit c "DeleteClient" [])) (λ _, resolve ()) w
     ∧ (deleteClient (logged c) (w, [])).2.2 =
         retried_log (submit c "DeleteClient" [] w) (Submit "DeleteClient" []))
  ∧ (∀ v, (addClient (logged c) v (w, [])).2.2 =
            [Submit "AddClient" [JS.toString v]])
  ∧ (∀ data, (contributeResource (logged c) data (w, [])).2.2 =
               [Submit "ContributeResource" [data]])
  ∧ (∀ n, (consumeResource (logged c) n (w, [])).2.2 =
            [Submit "ConsumeResource" [JS.toString n]])
  ∧ (getTokens decode JSON_parse_number (logged c) (w, [])).2.2 =
      [Evaluate "GetTokens" []]
  ∧ (clientExists decode toLowerCase (logged c) (w, [])).2.2 =
      [Evaluate "ClientExists" []]
  ∧ (getAllTokens decode JSON_parse_assets (logged c) (w, [])).2.2 =
      [Evaluate "GetAllTokens" []].
Proof.
  assert (∀ name args,
            (await (submitWithRetry (submit (logged c) name args))
                   (λ _, resolve ()) (w, [])).2.2 =
              retried_log (submit c name args w) (Submit name args)) as Hretry.
  { intros name args.
    unfold await, submitWithRetry, RETRIES, retried_log. simpl.
    destruct (submit c name args w) as [[v|err1] w1]; [done|]. simpl.
    destruct (is_read_conflict err1); [|done].
    destruct (submit c name args w1) as [[v|err2] w2]; [done|]. simpl.
    by destruct (is_read_conflict err2). }
  assert (∀ name args,
            (await (submit (logged c) name args)
                   (λ _, resolve ()) (w, [])).2.2 = [Submit name args]) as Honce.
  { intros name args. unfold await. simpl.
    by destruct (submit c name args w) as [[v|err] w1]. }
  split_and!.
  - intros v. split; [done|]. apply Hretry.
  - done.
  - apply Hretry.
  - intros v. apply Honce.
  - intros data. apply Honce.
  - intros n. apply Honce.
  - unfold getTokens, await. simpl.
    by destruct (evaluate c "GetTokens" [] w) as [[v|err] w1].
  - unfold clientExists, await. simpl.
    by destruct (evaluate c "ClientExists" [] w) as [[v|err] w1].
  - unfold getAllTokens, await. simpl.
    destruct (evaluate c "GetAllTokens" [] w) as [[v|err] w1]; [|done].
    by destruct (JS.length v =? 0).
Qed.

End ClientProperties.

(** ** Further properties of the contract *)

Section MissingAndNewAccounts.
Import Chaincode.

Lemma absent_length L id :
  evaluate (ClientExists id) L = Value false →
  (0 <? JS.length (stored L id)) = false ∧ (JS.length (stored L id) =? 0) = true.
Proof.
  unfold evaluate. rewrite ClientExists_run. simpl. intros [= Hex].
  split; [done|]. apply Z.ltb_ge in Hex. pose proof (length_nonneg (stored L id)).
  apply Z.eqb_eq. lia.
Qed.

Lemma existing_length L id :
  evaluate (ClientExists id) L = Value true →
  (0 <? JS.length (stored L id)) = true ∧ (JS.length (stored L id) =? 0) = false.
Proof.
  unfold evaluate. rewrite ClientExists_run. simpl. intros [= Hex].
  split; [done|]. apply Z.ltb_lt in Hex. apply Z.eqb_neq. lia.
Qed.

Lemma ClientExists_record L mspid id amount :
  evaluate (ClientExists id) (record L mspid id amount) = Value true.
Proof.
  rewrite ClientExists_Value, stored_record_eq. f_equal.
  apply bool_decide_eq_true, toString_nonempty.
Qed.

(** On a key without a stored value every operation but [AddClient] fails:
    [GetTokens] and [DeleteClient] with the not-created error, [PutTokens],
    [ContributeResource] and [ConsumeResource] with the does-not-exist
    error. *)
Theorem missing_account_rejected L mspid id :
  evaluate (ClientExists id) L = Value false →
  evaluate (GetTokens id) L = Failed (NotCreated id)
  ∧ submit mspid (InvDeleteClient id) L = Rejected (NotCreated id)
  ∧ (∀ v, submit mspid (InvPutTokens id v) L = Rejected (DoesNotExist id))
  ∧ (∀ data, submit mspid (InvContributeResource id data) L
             = Rejected (DoesNotExist id))
  ∧ (∀ n, submit mspid (InvConsumeResource id n) L = Rejected (DoesNotExist id)).
Proof.
  intros [Hlt Heq]%absent_length. split_and!.
  - unfold evaluate. rewrite GetTokens_run. simpl. by rewrite Heq.
  - by rewrite submit_DeleteClient, Heq.
  - intros v. by rewrite submit_PutTokens, Hlt.
  - intros data. by rewrite submit_ContributeResource, Hlt.
  - intros n. by rewrite submit_ConsumeResource, Hlt.
Qed.

Lemma missing_account_rejected_witness :
  evaluate (GetTokens "bob") (replay [("Org1MSP", InvAddClient "alice" 5)])
    = Failed (NotCreated "bob")
  ∧ submit "Org1MSP" (InvPutTokens "bob" 3)
      (replay [("Org1MSP", InvAddClient "alice" 5)])
    = Rejected (DoesNotExist "bob").
Proof.
  destruct (missing_account_rejected
              (replay [("Org1MSP", InvAddClient "alice" 5)]) "Org1MSP" "bob")
    as (Hget & _ & Hput & _).
  - vm_compute; reflexivity.
  - split; [exact Hget|exact (Hput 3)].
Defined.



End MissingAndNewAccounts.

Section EffectsOfSubmissions.
Import Chaincode.

(** A submission, committed or not, touches neither the value nor the policy
    of any key other than the one it names. *)
Theorem other_keys_untouched L (call : string * Invocation) (id' : string) :
  id' ≠ key_of call.2 →
  values (after L call) !! id' = values L !! id'
  ∧ policies (after L call) !! id' = policies L !! id'.
Proof.
  intros Hne. destruct call as [mspid inv]. unfold after. simpl in *.
  assert (∀ amount, values (record L mspid (key_of inv) amount) !! id'
                      = values L !! id'
                    ∧ policies (record L mspid (key_of inv) amount) !! id'
                      = policies L !! id') as Hrec.
  { intros amount. unfold record. simpl. by rewrite !lookup_insert_ne. }
  destruct inv as [id a|id a|id|id data|id n]; simpl in *.
  - rewrite submit_AddClient. destruct (0 <? _); [done|apply Hrec].
  - rewrite submit_PutTokens. destruct (0 <? _); [apply Hrec|done].
  - rewrite submit_DeleteClient. destruct (_ =? 0); [done|].
    simpl. by rewrite lookup_delete_ne.
  - rewrite submit_ContributeResource. destruct (0 <? _); [|done].
    destruct (JS.Number_ _); [apply Hrec|done].
  - rewrite submit_ConsumeResource. destruct (0 <? _); [|done].
    destruct (JS.Number_ _); [|done]. cbn zeta.
    destruct (_ <? 0); [done|apply Hrec].
Qed.

Lemma other_keys_untouched_witness :
  let L := replay [("Org1MSP", InvAddClient "alice" 5);
                   ("Org1MSP", InvAddClient "bob" 7)] in
  values (after L ("Org2MSP", InvConsumeResource "bob" 30)) !! "alice"
    = values L !! "alice"
  ∧ policies (after L ("Org2MSP", InvConsumeResource "bob" 30)) !! "alice"
    = policies L !! "alice".
Proof.
  intros L.
  apply (other_keys_untouched L ("Org2MSP", InvConsumeResource "bob" 30) "alice").
  simpl. discriminate.
Defined.

Lemma collect_effects results :
  ∀ assets ctx fx,
    match collect results assets ctx fx with
    | Return _ fx' => fx' = fx
    | _ => True
    end.
Proof.
  induction results as [|result rest IH]; intros assets ctx fx; [done|].
  simpl. unfold mbind, Tx_bind, Number_.
  destruct (JS.Number_ result.2); [|done]. apply IH.
Qed.

(** The three evaluated functions leave the transaction's effects as they
    found them: they issue no write, attach no policy and set no event. *)
Theorem reads_have_no_effects ctx fx id :
  match GetTokens id ctx fx with Return _ fx' => fx' = fx | _ => True end
  ∧ match ClientExists id ctx fx with Return _ fx' => fx' = fx | _ => True end
  ∧ match GetAllTokens ctx fx with Return _ fx' => fx' = fx | _ => True end.
Proof.
  split_and!.
  - rewrite GetTokens_run. destruct (_ =? 0); [done|].
    by destruct (JS.Number_ _).
  - by rewrite ClientExists_run.
  - unfold GetAllTokens, mbind, Tx_bind, getStateByRange_all.
    pose proof (collect_effects
                  (merge_sort key_le (map_to_list (values (world ctx))))
                  [] ctx fx) as Hc.
    by destruct (collect _ _ _ _).
Qed.

(** The event of a committed submission carries the name of the submitted
    function, also when that function went through [PutTokens], and as its
    payload the bytes now stored under the key, or for [DeleteClient] the
    bytes that were stored there. *)
Theorem event_of_committed L mspid inv L' ev :
  submit mspid inv L = Committed L' ev →
  ev = Some (event_name inv,
             if is_delete inv then stored L (key_of inv)
             else stored L' (key_of inv)).
Proof.
  destruct inv as [id a|id a|id|id data|id n]; simpl.
  - rewrite submit_AddClient. destruct (0 <? _); [done|].
    intros [= <- <-]. by rewrite stored_record_eq.
  - rewrite submit_PutTokens. destruct (0 <? _); [|done].
    intros [= <- <-]. by rewrite stored_record_eq.
  - rewrite submit_DeleteClient. destruct (_ =? 0); [done|].
    by intros [= <- <-].
  - rewrite submit_ContributeResource. destruct (0 <? _); [|done].
    destruct (JS.Number_ _); [|done].
    intros [= <- <-]. by rewrite stored_record_eq.
  - rewrite submit_ConsumeResource. destruct (0 <? _); [|done].
    destruct (JS.Number_ _); [|done]. cbn zeta. destruct (_ <? 0); [done|].
    intros [= <- <-]. by rewrite stored_record_eq.
Qed.

Lemma event_of_committed_witness :
  Some ("ContributeResource", "6") =
  Some (event_name (InvContributeResource "alice" "0123456789"),
        stored (record (replay [("Org1MSP", InvAddClient "alice" 5)])
                       "Org1MSP" "alice" 6) "alice").
Proof.
  apply (event_of_committed (replay [("Org1MSP", InvAddClient "alice" 5)])
           "Org1MSP" (InvContributeResource "alice" "0123456789")).
  vm_compute; reflexivity.
Defined.

(** Of two [PutTokens] on the same existing account only the second shows:
    the ledger, values and policies alike, is the one the second would have
    produced alone. *)
Theorem PutTokens_overwrites L mspid mspid' id v v' :
  evaluate (ClientExists id) L = Value true →
  after (after L (mspid, InvPutTokens id v)) (mspid', InvPutTokens id v')
    = after L (mspid', InvPutTokens id v').
Proof.
  intros [Hlt _]%existing_length. unfold after. simpl.
  rewrite !(submit_PutTokens L), Hlt, submit_PutTokens, stored_record_eq.
  pose proof (toString_length v) as Hlen. apply Z.ltb_lt in Hlen. rewrite Hlen.
  unfold record. simpl. by rewrite !insert_insert_eq.
Qed.

Lemma PutTokens_overwrites_witness :
  let L := replay [("Org1MSP", InvAddClient "alice" 5)] in
  after (after L ("Org1MSP", InvPutTokens "alice" 1))
        ("Org2MSP", InvPutTokens "alice" 2)
    = after L ("Org2MSP", InvPutTokens "alice" 2).
Proof.
  intros L. apply (PutTokens_overwrites L "Org1MSP" "Org2MSP" "alice" 1 2).
  vm_compute; reflexivity.
Defined.

End EffectsOfSubmissions.

Section CostsAndBalances.
Import Chaincode.

Lemma length_append (s t : string) :
  JS.length (s +:+ t) = JS.length s + JS.length t.
Proof.
  unfold JS.length. induction s as [|a s IH]; simpl; [done|]. lia.
Qed.

(** The tokens earned for a contribution: none for the empty string only,
    and otherwise the least number of tens that covers its length. *)
Theorem evaluateObfuscation_bounds (data : string) :
  (evaluateObfuscation data = 0 ↔ data = "")
  ∧ JS.length data ≤ 10 * evaluateObfuscation data < JS.length data + 10.
Proof.
  pose proof (length_nonneg data) as Hlen.
  pose proof (proj1 (Math_ceil_div10_spec (JS.length data)
                       (evaluateObfuscation data)) eq_refl) as Hc.
  split; [|lia]. rewrite <- length_zero_iff. split; [lia|].
  intros Hz. apply Math_ceil_div10_spec. lia.
Qed.



End CostsAndBalances.

Section ReachableLedgers.
Import Chaincode.



End ReachableLedgers.

(** ** Further properties of the client and of the scripts *)

Section RetryLoop.
Import Client.

Lemma retry_loop_count {World T} (attempt : Promise World T) n :
  ∀ lastError w k,
    (k ≤ (retry_loop (counted attempt) n lastError (w, k)).2.2 ≤ k + n)%nat.
Proof.
  induction n as [|n IH]; intros lastError w k; simpl; [lia|].
  destruct (attempt w) as [[v|err] w1]; simpl; [lia|].
  destruct (is_read_conflict err); simpl; [|lia].
  specialize (IH err w1 (S k)). lia.
Qed.

Lemma retry_loop_all_conflicts {World T} (attempt : Promise World T) err n :
  (∀ w, (attempt w).1 = Rejected err) →
  is_read_conflict err = true →
  ∀ lastError w k,
    (retry_loop (counted attempt) (S n) lastError (w, k)).1 = Rejected err
    ∧ (retry_loop (counted attempt) (S n) lastError (w, k)).2.2 = (k + S n)%nat.
Proof.
  intros Hrej Hconf. induction n as [|n IH]; intros lastError w k.
  - simpl. pose proof (Hrej w) as Hw.
    destruct (attempt w) as [[v|e] w1]; simpl in *; [done|].
    injection Hw as ->. rewrite Hconf. simpl. split; [done|lia].
  - pose proof (Hrej w) as Hw.
    change (retry_loop (counted attempt) (S (S n)) lastError (w, k))
      with (match counted attempt (w, k) with
            | (Fulfilled v, w') => (Fulfilled v, w')
            | (Rejected e, w') =>
                if is_read_conflict e
                then retry_loop (counted attempt) (S n) e w'
                else (Rejected e, w')
            end).
    unfold counted at 1 3.
    destruct (attempt w) as [[v|e] w1]; simpl in Hw; [done|].
    injection Hw as ->. rewrite Hconf.
    destruct (IH err w1 (S k)) as [H1 H2]. split; [done|]. rewrite H2. lia.
Qed.

(** The loop of [submitWithRetry], for whatever bound [RETRIES] is set to:
    it never makes more attempts than the bound, it makes none and throws
    [undefined] when the bound is zero, and when every attempt meets a read
    conflict it makes exactly as many attempts as the bound allows and then
    throws that conflict. *)
Theorem retry_loop_bound {World T} (attempt : Promise World T) (n : nat) (w : World) :
  ((retry_loop (counted attempt) n undefined (w, 0%nat)).2.2 ≤ n)%nat
  ∧ retry_loop attempt 0 undefined w = (Rejected undefined, w)
  ∧ (∀ err, (∀ w', (attempt w').1 = Rejected err) →
            is_read_conflict err = true →
            (0 < n)%nat →
            (retry_loop (counted attempt) n undefined (w, 0%nat)).1 = Rejected err
            ∧ (retry_loop (counted attempt) n undefined (w, 0%nat)).2.2 = n).
Proof.
  split_and!.
  - pose proof (retry_loop_count attempt n undefined w 0%nat). lia.
  - done.
  - intros err Hrej Hconf Hn. destruct n as [|n]; [lia|].
    apply (retry_loop_all_conflicts attempt err n Hrej Hconf undefined w 0%nat).
Qed.

Lemma retry_loop_bound_witness :
  (retry_loop
     (counted (λ w : unit, (@Rejected string (CommitError MVCC_READ_CONFLICT "tx"), w)))
     5 undefined ((), 0%nat)).2.2 = 5%nat.
Proof.
  apply (proj2 (proj2 (retry_loop_bound
                  (λ w : unit, (@Rejected string (CommitError MVCC_READ_CONFLICT "tx"), w))
                  5 ()))
           (CommitError MVCC_READ_CONFLICT "tx")).
  - intros w'. reflexivity.
  - reflexivity.
  - lia.
Defined.

End RetryLoop.

Section ScriptProperties.
Import Client.

Lemma try_catch_log_logged {World} (c : Contract World) name args w console :
  Scripts.try_catch_log (submit (logged c) name args) ((w, []), console) =
    match submit c name args w with
    | (Fulfilled _, w') => (Fulfilled (), ((w', [Submit name args]), console))
    | (Rejected err, w') =>
        (Fulfilled (), ((w', [Submit name args]), console ++ [err]))
    end.
Proof.
  unfold Scripts.try_catch_log. simpl.
  by destruct (submit c name args w) as [[v|err] w'].
Qed.

(** Each function of the two scripts submits its transaction exactly once
    and is always fulfilled: a rejection by the gateway, a read conflict
    included, is printed on the console and goes no further.  [DeleteClient]
    submits the identifier alone, whatever its second argument. *)
Theorem scripts_swallow_rejections {World} (c : Contract World) (w : World)
    (console : Scripts.Console) (id data amount : string) (requiredLength : Z) :
  let settled name args :=
    match submit c name args w with
    | (Fulfilled _, w') => (Fulfilled (), ((w', [Submit name args]), console))
    | (Rejected err, w') =>
        (Fulfilled (), ((w', [Submit name args]), console ++ [err]))
    end in
  Scripts.Contribute (logged c) id data ((w, []), console)
    = settled "ContributeResource" [id; data]
  ∧ Scripts.Consume (logged c) id requiredLength ((w, []), console)
    = settled "ConsumeResource" [id; JS.toString requiredLength]
  ∧ Scripts.ContributeResource (logged c) id amount ((w, []), console)
    = settled "ContributeResource" [id; amount]
  ∧ Scripts.ConsumeResource (logged c) id amount ((w, []), console)
    = settled "ConsumeResource" [id; amount]
  ∧ Scripts.AddClient (logged c) id amount ((w, []), console)
    = settled "AddClient" [id; amount]
  ∧ Scripts.DeleteClient (logged c) id amount ((w, []), console)
    = settled "DeleteClient" [id].
Proof.
  intros settled. unfold settled. split_and!; apply try_catch_log_logged.
Qed.

End ScriptProperties.

(** ** Facts about integer-valued doubles *)

Section DoubleFacts.
Import Double.

Lemma nearest_even_spec x y :
  0 < y -> - y <= 2 * (nearest_even x y * y - x) <= y.
Proof.
  intros Hy. unfold nearest_even.
  pose proof (Z.div_mod x y ltac:(lia)) as Hdm.
  pose proof (Z.mod_pos_bound x y Hy) as Hr.
  pose proof (Z.mod_pos_bound (x / y) 2 ltac:(lia)) as Hp.
  destruct (Z.ltb_spec (2 * (x mod y)) y); [nia|].
  destruct (Z.ltb_spec y (2 * (x mod y))); [nia|].
  assert (x / y mod 2 = 0 ∨ x / y mod 2 = 1) as [->| ->] by lia; nia.
Qed.

Lemma div10_unit a :
  1 <= a <= 2 ^ 53 ->
  exists e, 0 <= e < 56 ∧ 2 ^ (Z.log2 (a * 2 ^ 56 / 10) - 52) = 2 ^ e
            ∧ 5 * 2 ^ e < 2 ^ 56.
Proof.
  intros Ha. set (t := a * 2 ^ 56 / 10).
  pose proof (Z.div_mod (a * 2 ^ 56) 10 ltac:(lia)) as Hdm.
  pose proof (Z.mod_pos_bound (a * 2 ^ 56) 10 ltac:(lia)) as Hr.
  fold t in Hdm.
  assert (2 ^ 52 < t) as Ht by lia.
  assert (t * 10 <= a * 2 ^ 56) as Ht10 by lia.
  destruct (Z.log2_spec t ltac:(lia)) as [Hlo Hhi].
  assert (52 <= Z.log2 t) as HL.
  { apply Z.log2_le_pow2; lia. }
  set (e := Z.log2 t - 52) in *.
  assert (2 ^ Z.log2 t = 2 ^ e * 2 ^ 52) as Hsplit.
  { rewrite <- Z.pow_add_r by lia. f_equal. lia. }
  assert (5 * 2 ^ e < 2 ^ 56) as Hu.
  { change (2 ^ 56) with (16 * 2 ^ 52) in *. change (2 ^ 53) with (2 * 2 ^ 52) in *.
    nia. }
  exists e. split; [|split; [reflexivity|exact Hu]].
  split; [lia|].
  apply (Z.pow_lt_mono_r_iff 2); lia.
Qed.

Lemma ceil_between m w k : 0 < w -> (k - 1) * w < m <= k * w -> - ((- m) / w) = k.
Proof.
  intros Hw Hm.
  rewrite <- (Z.div_unique_pos (- m) w (- k) (k * w - m)); lia.
Qed.

Lemma floor_between m w f : 0 < w -> f * w <= m < (f + 1) * w -> m / w = f.
Proof.
  intros Hw Hm. rewrite <- (Z.div_unique_pos m w f (m - f * w)); lia.
Qed.

Lemma div10_mantissa a :
  1 <= a <= 2 ^ 53 ->
  exists m u w, 0 < u ∧ 5 < w ∧ 2 ^ 56 = u * w
    ∧ 2 ^ (Z.log2 (a * 2 ^ 56 / 10) - 52) = u
    ∧ nearest_even (a * 2 ^ 56) (10 * u) = m
    ∧ - 5 <= 10 * m - a * w <= 5.
Proof.
  intros Ha. destruct (div10_unit a Ha) as (e & He & Hu & H5).
  set (u := 2 ^ e) in *. set (w := 2 ^ (56 - e)).
  assert (0 < u) as Hupos by (apply Z.pow_pos_nonneg; lia).
  assert (2 ^ 56 = u * w) as Hsplit.
  { unfold u, w. rewrite <- Z.pow_add_r by lia. f_equal. lia. }
  exists (nearest_even (a * 2 ^ 56) (10 * u)), u, w.
  pose proof (nearest_even_spec (a * 2 ^ 56) (10 * u) ltac:(lia)) as Hm.
  set (m := nearest_even (a * 2 ^ 56) (10 * u)) in *.
  rewrite Hsplit in Hm, H5.
  repeat split; try reflexivity; try assumption.
  - nia.
  - nia.
  - nia.
Qed.

Lemma ceil_div10_exact n :
  Z.abs n <= 2 ^ 53 -> ceil (div10 n) = (n + 9) / 10.
Proof.
  intros Hn. unfold div10, ceil.
  destruct (Z.eqb_spec n 0) as [->|Hnz]; [reflexivity|].
  destruct (div10_mantissa (Z.abs n) ltac:(lia))
    as (m & u & w & Hu & Hw & Hsplit & -> & -> & Hm).
  cbn [fst snd]. rewrite Hsplit.
  pose proof (Z.div_mod (n + 9) 10 ltac:(lia)) as Hdm.
  pose proof (Z.mod_pos_bound (n + 9) 10 ltac:(lia)) as Hr.
  set (k := (n + 9) / 10) in *.
  destruct (Z.sgn_spec n) as [[Hlt ->]|[[? _]|[Hgt ->]]]; [|lia|].
  - rewrite Z.mul_1_l, Z.abs_eq in * by lia.
    replace (- (m * u)) with ((- m) * u) by lia.
    rewrite (Z.mul_comm u w), Z.div_mul_cancel_r by lia.
    apply ceil_between; [lia|]. nia.
  - rewrite Z.abs_neq in * by lia.
    replace (- (- (1) * (m * u))) with (m * u) by lia.
    rewrite (Z.mul_comm u w), Z.div_mul_cancel_r by lia.
    rewrite (floor_between m w (- k)); [lia|lia|]. nia.
Qed.


Lemma round_exact z : exact z → round z = z.
Proof.
  unfold exact, round. intros Hz.
  by destruct (Z.leb_spec (Z.abs z) (2 ^ 53)); [|lia].
Qed.



End DoubleFacts.

(** ** The contract on doubles: what each submission does *)

Section Runs64.
Import Chaincode.

Lemma PutTokens64_run id newAmount ctx fx :
  Chaincode64.PutTokens id newAmount ctx fx =
    if 0 <? JS.length (stored (world ctx) id)
    then if Z.abs newAmount <=? 2 ^ 53
         then Return () (mkEffects
                           (writes fx ++ store_writes (MSPID ctx) id newAmount)
                           (Some ("PutTokens", JS.toString newAmount)))
         else Outside
    else Throw (DoesNotExist id).
Proof.
  unfold Chaincode64.PutTokens, Chaincode64.toString, mbind, Tx_bind.
  rewrite ClientExists_run. destruct (0 <? _); [|done]. cbn [negb].
  destruct (_ <=? 2 ^ 53); [|done]. simpl. by rewrite <- app_assoc.
Qed.

Lemma GetTokens64_run id ctx fx :
  Chaincode64.GetTokens id ctx fx =
    if JS.length (stored (world ctx) id) =? 0 then Throw (NotCreated id)
    else match JS.Number_ (stored (world ctx) id) with
         | Some n => Return (Double.round n) fx
         | None => Outside
         end.
Proof.
  unfold Chaincode64.GetTokens, Chaincode64.Number_, mbind, Tx_bind, getState,
    stored. simpl.
  destruct (_ =? 0); [done|]. by destruct (JS.Number_ _).
Qed.

Lemma submit64_AddClient L mspid id initAmount :
  Chaincode64.submit mspid (InvAddClient id initAmount) L =
    if 0 <? JS.length (stored L id) then Rejected (AlreadyExists id)
    else Chaincode64.stores L mspid id "AddClient" (Double.round initAmount).
Proof.
  unfold Chaincode64.submit, Chaincode64.dispatch, Chaincode64.AddClient,
    Chaincode64.toString, Chaincode64.stores, mbind, Tx_bind.
  rewrite ClientExists_run. simpl. destruct (0 <? _); [done|].
  by destruct (_ <=? 2 ^ 53).
Qed.

Lemma submit64_PutTokens L mspid id newAmount :
  Chaincode64.submit mspid (InvPutTokens id newAmount) L =
    if 0 <? JS.length (stored L id)
    then Chaincode64.stores L mspid id "PutTokens" (Double.round newAmount)
    else Rejected (DoesNotExist id).
Proof.
  unfold Chaincode64.submit, Chaincode64.dispatch, Chaincode64.stores.
  rewrite PutTokens64_run. simpl. destruct (0 <? _); [|done].
  by destruct (_ <=? 2 ^ 53).
Qed.

Lemma submit64_ContributeResource L mspid id data :
  Chaincode64.submit mspid (InvContributeResource id data) L =
    if 0 <? JS.length (stored L id)
    then match JS.Number_ (stored L id) with
         | Some n =>
             Chaincode64.stores L mspid id "ContributeResource"
               (Double.round (Double.round n + Chaincode64.evaluateObfuscation data))
         | None => Unread
         end
    else Rejected (DoesNotExist id).
Proof.
  unfold Chaincode64.submit, Chaincode64.dispatch, Chaincode64.ContributeResource,
    Chaincode64.toString, Chaincode64.stores, mbind, Tx_bind.
  rewrite ClientExists_run. simpl.
  destruct (0 <? _) eqn:Hex; [|done]. cbn [negb].
  rewrite GetTokens64_run. simpl.
  apply Z.ltb_lt in Hex. destruct (_ =? 0) eqn:Hz; [apply Z.eqb_eq in Hz; lia|].
  destruct (JS.Number_ _); [|done].
  rewrite PutTokens64_run. simpl.
  destruct (0 <? _) eqn:Hex'; [|apply Z.ltb_ge in Hex'; lia].
  by destruct (_ <=? 2 ^ 53).
Qed.

Lemma submit64_ConsumeResource L mspid id requiredLength :
  Chaincode64.submit mspid (InvConsumeResource id requiredLength) L =
    if 0 <? JS.length (stored L id)
    then match JS.Number_ (stored L id) with
         | Some n =>
             let newAmount :=
               Double.round (Double.round n
                 - Chaincode64.evaluateDeduction (Double.round requiredLength)) in
             if newAmount <? 0 then Rejected (InsufficientBalance id)
             else Chaincode64.stores L mspid id "ConsumeResource" newAmount
         | None => Unread
         end
    else Rejected (DoesNotExist id).
Proof.
  unfold Chaincode64.submit, Chaincode64.dispatch, Chaincode64.ConsumeResource,
    Chaincode64.toString, Chaincode64.stores, mbind, Tx_bind.
  rewrite ClientExists_run. simpl.
  destruct (0 <? _) eqn:Hex; [|done]. cbn [negb].
  rewrite GetTokens64_run. simpl.
  apply Z.ltb_lt in Hex. destruct (_ =? 0) eqn:Hz; [apply Z.eqb_eq in Hz; lia|].
  destruct (JS.Number_ _); [|done]. cbn zeta.
  destruct (_ <? 0); [done|].
  rewrite PutTokens64_run. simpl.
  destruct (0 <? _) eqn:Hex'; [|apply Z.ltb_ge in Hex'; lia].
  by destruct (_ <=? 2 ^ 53).
Qed.

End Runs64.

(** ** Properties of the contract on doubles *)

Section Balances64.
Import Chaincode.

Lemma exact_printable z : Double.exact z → (Z.abs z <=? 2 ^ 53) = true.
Proof. unfold Double.exact. intros Hz. by apply Z.leb_le. Qed.

Lemma stores_exact L mspid id name amount :
  Double.exact amount →
  Chaincode64.stores L mspid id name amount =
    Committed (record L mspid id amount) (Some (name, JS.toString amount)).
Proof. intros Hz. unfold Chaincode64.stores. by rewrite exact_printable. Qed.

Lemma GetTokens64_Value L id b :
  evaluate (Chaincode64.GetTokens id) L = Value b ↔
  stored L id ≠ "" ∧ ∃ n, JS.Number_ (stored L id) = Some n ∧ Double.round n = b.
Proof.
  unfold evaluate. rewrite GetTokens64_run. simpl.
  destruct (_ =? 0) eqn:Hz.
  - apply Z.eqb_eq, length_zero_iff in Hz. split; [done|]. by intros [? _].
  - apply Z.eqb_neq in Hz. rewrite length_zero_iff in Hz.
    destruct (JS.Number_ _) as [n|].
    + split; [intros [= <-]; eauto|by intros [_ (? & [= <-] & <-)]].
    + split; [done|by intros [_ (? & ? & _)]].
Qed.

Lemma GetTokens64_record L mspid id amount :
  Double.exact amount →
  evaluate (Chaincode64.GetTokens id) (record L mspid id amount) = Value amount.
Proof.
  intros Hz. apply GetTokens64_Value. rewrite stored_record_eq.
  split; [apply toString_nonempty|]. exists amount.
  split; [apply Number_toString|by apply round_exact].
Qed.

Lemma present64_length L id b :
  evaluate (Chaincode64.GetTokens id) L = Value b →
  (0 <? JS.length (stored L id)) = true.
Proof.
  rewrite GetTokens64_Value. intros [Hne _]. apply Z.ltb_lt.
  pose proof (length_nonneg (stored L id)).
  rewrite <- length_zero_iff in Hne. lia.
Qed.

Lemma evaluateDeduction64_exact n c :
  Double.exact n → 10 * (c - 1) < n ≤ 10 * c →
  Chaincode64.evaluateDeduction (Double.round n) = c.
Proof.
  intros Hn Hc. rewrite round_exact by done.
  unfold Chaincode64.evaluateDeduction. rewrite ceil_div10_exact by done.
  pose proof (Z.div_mod (n + 9) 10 ltac:(lia)).
  pose proof (Z.mod_pos_bound (n + 9) 10 ltac:(lia)). lia.
Qed.

Lemma evaluateObfuscation64_exact data c :
  Double.exact (JS.length data) → 10 * (c - 1) < JS.length data ≤ 10 * c →
  Chaincode64.evaluateObfuscation data = c.
Proof.
  intros Hn Hc. unfold Chaincode64.evaluateObfuscation.
  rewrite ceil_div10_exact by done.
  pose proof (Z.div_mod (JS.length data + 9) 10 ltac:(lia)).
  pose proof (Z.mod_pos_bound (JS.length data + 9) 10 ltac:(lia)). lia.
Qed.

End Balances64.

Section Claims64.
Import Chaincode.

(** C5, as stated for every integer, fails: the quotient by ten is rounded to
    a double before [Math.ceil].  With balance 7205759403792795 and required
    length [2 ^ 56 + 16], whose ceiling of the tenth is 7205759403792796, the
    contract charges 7205759403792795 and commits the balance 0. *)
Lemma ConsumeResource_ceiling_refuted :
  ¬ (∀ L mspid id n b c,
       evaluate (Chaincode64.GetTokens id) L = Value b →
       10 * (c - 1) < n ≤ 10 * c →
       b - c < 0 →
       Chaincode64.submit mspid (InvConsumeResource id n) L
         = Rejected (InsufficientBalance id)).
Proof.
  intros H.
  assert (Chaincode64.submit "Org1MSP" (InvConsumeResource "alice" (2 ^ 56 + 16))
            (record genesis "Org1MSP" "alice" 7205759403792795)
          = Rejected (InsufficientBalance "alice")) as Habs.
  { apply (H _ _ _ _ 7205759403792795 7205759403792796).
    - vm_compute; reflexivity.
    - vm_compute. split; [reflexivity|discriminate].
    - vm_compute; reflexivity. }
  vm_compute in Habs. discriminate Habs.
Qed.

(** C5, amended: for an existing account with balance [b] and an integer
    [n] of magnitude at most [2 ^ 53], with [c] the ceiling of [n / 10] and
    [b - c] of magnitude at most [2 ^ 53] too, [ConsumeResource(id, n)]
    commits the balance [b - c] when [0 ≤ b - c], and otherwise is rejected
    with the insufficient-tokens error and leaves the ledger, hence the
    balance, as it was. *)
Theorem ConsumeResource_deducts_ceiling_exact L mspid id n b c :
  evaluate (Chaincode64.GetTokens id) L = Value b →
  Double.exact n →
  10 * (c - 1) < n ≤ 10 * c →
  Double.exact (b - c) →
  Chaincode64.submit mspid (InvConsumeResource id n) L =
    (if 0 <=? b - c
     then Committed (record L mspid id (b - c))
                    (Some ("ConsumeResource", JS.toString (b - c)))
     else Rejected (InsufficientBalance id))
  ∧ ∃ L', Chaincode64.after L (mspid, InvConsumeResource id n) = Some L'
          ∧ evaluate (Chaincode64.GetTokens id) L' =
              Value (if 0 <=? b - c then b - c else b).
Proof.
  intros Hb Hn Hc Hbc.
  assert (Chaincode64.submit mspid (InvConsumeResource id n) L =
            if 0 <=? b - c
            then Committed (record L mspid id (b - c))
                           (Some ("ConsumeResource", JS.toString (b - c)))
            else Rejected (InsufficientBalance id)) as Hsub.
  { rewrite submit64_ConsumeResource, (present64_length L id b Hb).
    apply GetTokens64_Value in Hb as (_ & z & -> & ->). cbn zeta.
    rewrite (evaluateDeduction64_exact n c Hn Hc), (round_exact _ Hbc).
    destruct (Z.ltb_spec (b - c) 0), (Z.leb_spec 0 (b - c)); try lia; [done|].
    by apply stores_exact. }
  split; [done|]. unfold Chaincode64.after. simpl. rewrite Hsub.
  destruct (0 <=? b - c); eauto using GetTokens64_record.
Qed.

(** With balance 5: 41 and 42 cost 5 and leave 0; 51 costs 6 and fails. *)
Lemma ConsumeResource_deducts_ceiling_exact_witness :
  let L := record genesis "Org1MSP" "alice" 5 in
  Chaincode64.submit "Org1MSP" (InvConsumeResource "alice" 41) L
    = Committed (record L "Org1MSP" "alice" 0) (Some ("ConsumeResource", "0"))
  ∧ Chaincode64.submit "Org1MSP" (InvConsumeResource "alice" 42) L
    = Committed (record L "Org1MSP" "alice" 0) (Some ("ConsumeResource", "0"))
  ∧ Chaincode64.submit "Org1MSP" (InvConsumeResource "alice" 51) L
    = Rejected (InsufficientBalance "alice").
Proof.
  intros L.
  assert (evaluate (Chaincode64.GetTokens "alice") L = Value 5) as Hb
    by (vm_compute; reflexivity).
  assert (∀ z, Z.abs z ≤ 100 → Double.exact z) as Hsmall
    by (unfold Double.exact; lia).
  split_and!.
  - apply (ConsumeResource_deducts_ceiling_exact L "Org1MSP" "alice" 41 5 5 Hb);
      [apply Hsmall| |apply Hsmall]; lia.
  - apply (ConsumeResource_deducts_ceiling_exact L "Org1MSP" "alice" 42 5 5 Hb);
      [apply Hsmall| |apply Hsmall]; lia.
  - apply (ConsumeResource_deducts_ceiling_exact L "Org1MSP" "alice" 51 5 6 Hb);
      [apply Hsmall| |apply Hsmall]; lia.
Defined.

End Claims64.

Section MoreClaims64.
Import Chaincode.

(** C6, as stated for every balance, fails: the sum is rounded to a double.
    On an account with balance [2 ^ 53] the contribution of one character,
    which costs 1, commits the balance [2 ^ 53] again. *)
Lemma ContributeResource_ceiling_refuted :
  ¬ (∀ L mspid id data b c,
       evaluate (Chaincode64.GetTokens id) L = Value b →
       10 * (c - 1) < JS.length data ≤ 10 * c →
       ∃ L', Chaincode64.after L (mspid, InvContributeResource id data) = Some L'
             ∧ evaluate (Chaincode64.GetTokens id) L' = Value (b + c)).
Proof.
  intros H.
  destruct (H (record genesis "Org1MSP" "alice" (2 ^ 53))
              "Org1MSP" "alice" "a" (2 ^ 53) 1) as (L' & Hafter & Hget).
  - vm_compute; reflexivity.
  - vm_compute. split; [reflexivity|discriminate].
  - vm_compute in Hafter. injection Hafter as <-.
    vm_compute in Hget. discriminate Hget.
Qed.

(** C6, amended: for an existing account with balance [b] and a string
    [data], with [c] the ceiling of [data.length / 10] and [b + c] of
    magnitude at most [2 ^ 53], [ContributeResource(id, data)] commits, and
    the balance becomes [b + c]. *)
Theorem ContributeResource_adds_ceiling_exact L mspid id data b c :
  evaluate (Chaincode64.GetTokens id) L = Value b →
  Double.exact (JS.length data) →
  10 * (c - 1) < JS.length data ≤ 10 * c →
  Double.exact (b + c) →
  Chaincode64.submit mspid (InvContributeResource id data) L =
    Committed (record L mspid id (b + c))
              (Some ("ContributeResource", JS.toString (b + c)))
  ∧ ∃ L', Chaincode64.after L (mspid, InvContributeResource id data) = Some L'
          ∧ evaluate (Chaincode64.GetTokens id) L' = Value (b + c).
Proof.
  intros Hb Hlen Hc Hbc.
  assert (Chaincode64.submit mspid (InvContributeResource id data) L =
            Committed (record L mspid id (b + c))
              (Some ("ContributeResource", JS.toString (b + c)))) as Hsub.
  { rewrite submit64_ContributeResource, (present64_length L id b Hb).
    apply GetTokens64_Value in Hb as (_ & z & -> & ->).
    rewrite (evaluateObfuscation64_exact data c Hlen Hc), (round_exact _ Hbc).
    by apply stores_exact. }
  split; [done|]. unfold Chaincode64.after. simpl. rewrite Hsub.
  eauto using GetTokens64_record.
Qed.

(** A string of 23 characters adds exactly 3. *)
Lemma ContributeResource_adds_ceiling_exact_witness :
  Chaincode64.submit "Org1MSP"
    (InvContributeResource "alice" "abcdefghijklmnopqrstuvw")
    (record genesis "Org1MSP" "alice" 5)
  = Committed (record (record genesis "Org1MSP" "alice" 5) "Org1MSP" "alice" (5 + 3))
              (Some ("ContributeResource", JS.toString (5 + 3))).
Proof.
  apply (ContributeResource_adds_ceiling_exact
           (record genesis "Org1MSP" "alice" 5)
           "Org1MSP" "alice" "abcdefghijklmnopqrstuvw" 5 3).
  - vm_compute; reflexivity.
  - vm_compute; discriminate.
  - vm_compute. split; [reflexivity|discriminate].
  - vm_compute; discriminate.
Defined.

(** C9, as stated for every non-negative integer, fails: the amount reaches
    [PutTokens] as the nearest double.  [PutTokens(id, 2 ^ 53 + 1)] Chaincode64.stores
    [2 ^ 53], which is what [GetTokens] then returns. *)
Lemma PutTokens_round_trip_refuted :
  ¬ (∀ L mspid id v,
       evaluate (ClientExists id) L = Value true →
       0 ≤ v →
       ∃ L', Chaincode64.after L (mspid, InvPutTokens id v) = Some L'
             ∧ evaluate (Chaincode64.GetTokens id) L' = Value v).
Proof.
  intros H.
  destruct (H (record genesis "Org1MSP" "alice" 5)
              "Org1MSP" "alice" (2 ^ 53 + 1)) as (L' & Hafter & Hget).
  - vm_compute; reflexivity.
  - lia.
  - vm_compute in Hafter. injection Hafter as <-.
    vm_compute in Hget. discriminate Hget.
Qed.

(** C9, amended: for an existing account and an integer [v] of magnitude at
    most [2 ^ 53], in particular a non-negative one, [PutTokens(id, v)]
    commits and a [GetTokens(id)] right after it returns [v]. *)
Theorem PutTokens_then_GetTokens_exact L mspid id v :
  evaluate (ClientExists id) L = Value true →
  Double.exact v →
  Chaincode64.submit mspid (InvPutTokens id v) L =
    Committed (record L mspid id v) (Some ("PutTokens", JS.toString v))
  ∧ ∃ L', Chaincode64.after L (mspid, InvPutTokens id v) = Some L'
          ∧ evaluate (Chaincode64.GetTokens id) L' = Value v.
Proof.
  intros Hex Hv. unfold evaluate in Hex. rewrite ClientExists_run in Hex.
  simpl in Hex. injection Hex as Hex.
  assert (Chaincode64.submit mspid (InvPutTokens id v) L =
            Committed (record L mspid id v)
                      (Some ("PutTokens", JS.toString v))) as Hsub.
  { rewrite submit64_PutTokens, Hex, (round_exact _ Hv). by apply stores_exact. }
  split; [done|]. unfold Chaincode64.after. simpl. rewrite Hsub.
  eauto using GetTokens64_record.
Qed.

Lemma PutTokens_then_GetTokens_exact_witness :
  Chaincode64.submit "Org1MSP" (InvPutTokens "alice" 1234567890)
    (record genesis "Org1MSP" "alice" 5)
  = Committed (record (record genesis "Org1MSP" "alice" 5)
                      "Org1MSP" "alice" 1234567890)
              (Some ("PutTokens", JS.toString 1234567890)).
Proof.
  apply (PutTokens_then_GetTokens_exact
           (record genesis "Org1MSP" "alice" 5) "Org1MSP" "alice" 1234567890).
  - vm_compute; reflexivity.
  - vm_compute; discriminate.
Defined.

End MoreClaims64.

Section Solvency64.
Import Chaincode.






End Solvency64.

Section RevisedClaims.
Import Chaincode.



End RevisedClaims.

Section RetryProtocol.
Import Client.

(** C4: the retry protocol.  [submitWithRetry] makes a first attempt.  If it
    is fulfilled, that value is the result.  If it is rejected with a
    [CommitError] whose code is [MVCC_READ_CONFLICT], one more attempt is
    made and its outcome, value or error, is the outcome.  If it is rejected
    with a [CommitError] of any other code, with any other error or with
    [undefined], that is thrown at once.  So the error thrown is the last one
    met, and the number of attempts is one or two, two exactly after a read
    conflict on the first. *)
Theorem submitWithRetry_retries_read_conflict {World T}
    (attempt : Promise World T) (w : World) :
  submitWithRetry attempt w =
    match attempt w with
    | (Fulfilled v, w1) => (Fulfilled v, w1)
    | (Rejected (CommitError code tx), w1) =>
        if code =? MVCC_READ_CONFLICT
        then match attempt w1 with
             | (Fulfilled v, w2) => (Fulfilled v, w2)
             | (Rejected err2, w2) => (Rejected err2, w2)
             end
        else (Rejected (CommitError code tx), w1)
    | (Rejected (OtherError message), w1) => (Rejected (OtherError message), w1)
    | (Rejected undefined, w1) => (Rejected undefined, w1)
    end
  ∧ (submitWithRetry (counted attempt) (w, 0%nat)).2.2 =
      match attempt w with
      | (Rejected (CommitError code _), _) =>
          if code =? MVCC_READ_CONFLICT then 2%nat else 1%nat
      | _ => 1%nat
      end
  ∧ (1 ≤ (submitWithRetry (counted attempt) (w, 0%nat)).2.2 ≤ 2)%nat.
Proof.
  assert ((submitWithRetry (counted attempt) (w, 0%nat)).2.2 =
            match attempt w with
            | (Rejected (CommitError code _), _) =>
                if code =? MVCC_READ_CONFLICT then 2%nat else 1%nat
            | _ => 1%nat
            end) as Hcount.
  { unfold submitWithRetry, RETRIES, counted. simpl.
    destruct (attempt w) as [[v|[code tx|msg|]] w1]; simpl; try done.
    destruct (code =? MVCC_READ_CONFLICT); [|done].
    destruct (attempt w1) as [[v|err2] w2]; [done|].
    by destruct (is_read_conflict err2). }
  split; [|split; [done|]].
  - unfold submitWithRetry, RETRIES. simpl.
    destruct (attempt w) as [[v|[code tx|msg|]] w1]; simpl; try done.
    destruct (code =? MVCC_READ_CONFLICT); [|done].
    destruct (attempt w1) as [[v|err2] w2]; [done|].
    by destruct (is_read_conflict err2).
  - rewrite Hcount.
    destruct (attempt w) as [[v|[code tx|msg|]] w1]; try lia.
    destruct (code =? MVCC_READ_CONFLICT); lia.
Qed.

End RetryProtocol.

(** ** Further properties of the contract on doubles *)

Section Extras64.
Import Chaincode.

Lemma submit64_ConsumeResource_exact L mspid id n b c :
  evaluate (Chaincode64.GetTokens id) L = Value b →
  Double.exact n → 10 * (c - 1) < n ≤ 10 * c → Double.exact (b - c) →
  Chaincode64.submit mspid (InvConsumeResource id n) L =
    if 0 <=? b - c
    then Committed (record L mspid id (b - c))
                   (Some ("ConsumeResource", JS.toString (b - c)))
    else Rejected (InsufficientBalance id).
Proof.
  intros Hb Hn Hc Hbc.
  rewrite submit64_ConsumeResource, (present64_length L id b Hb).
  apply GetTokens64_Value in Hb as (_ & z & -> & ->). cbn zeta.
  rewrite (evaluateDeduction64_exact n c Hn Hc), (round_exact _ Hbc).
  destruct (Z.ltb_spec (b - c) 0), (Z.leb_spec 0 (b - c)); try lia; [done|].
  by apply stores_exact.
Qed.

Lemma submit64_ContributeResource_exact L mspid id data b c :
  evaluate (Chaincode64.GetTokens id) L = Value b →
  Double.exact (JS.length data) → 10 * (c - 1) < JS.length data ≤ 10 * c →
  Double.exact (b + c) →
  Chaincode64.submit mspid (InvContributeResource id data) L =
    Committed (record L mspid id (b + c))
              (Some ("ContributeResource", JS.toString (b + c))).
Proof.
  intros Hb Hlen Hc Hbc.
  rewrite submit64_ContributeResource, (present64_length L id b Hb).
  apply GetTokens64_Value in Hb as (_ & z & -> & ->).
  rewrite (evaluateObfuscation64_exact data c Hlen Hc), (round_exact _ Hbc).
  by apply stores_exact.
Qed.

(** [AddClient] on a key without a stored value commits the amount it is
    given, a negative one included, when that amount is an integer of
    magnitude at most [2 ^ 53]; afterwards the account exists and
    [GetTokens] returns that amount. *)
Theorem AddClient_creates_exact L mspid id v :
  evaluate (ClientExists id) L = Value false →
  Double.exact v →
  Chaincode64.submit mspid (InvAddClient id v) L =
    Committed (record L mspid id v) (Some ("AddClient", JS.toString v))
  ∧ evaluate (ClientExists id) (record L mspid id v) = Value true
  ∧ evaluate (Chaincode64.GetTokens id) (record L mspid id v) = Value v.
Proof.
  intros [Hlt _]%absent_length Hv. split_and!.
  - rewrite submit64_AddClient, Hlt, (round_exact _ Hv). by apply stores_exact.
  - apply ClientExists_record.
  - by apply GetTokens64_record.
Qed.

Lemma AddClient_creates_exact_witness :
  Chaincode64.submit "Org1MSP" (InvAddClient "bob" (-3)) genesis =
    Committed (record genesis "Org1MSP" "bob" (-3)) (Some ("AddClient", "-3")).
Proof.
  apply (AddClient_creates_exact genesis "Org1MSP" "bob" (-3)).
  - vm_compute; reflexivity.
  - vm_compute; discriminate.
Defined.

(** A request of length zero or less is never charged: with the lengths and
    balances within [2 ^ 53], on an account with a non-negative balance [b]
    it commits the balance [b - c], where the cost [c] is zero for lengths
    above [-10] and negative from [-10] downwards, so that the balance goes
    up. *)
Theorem ConsumeResource_nonpositive_length_exact L mspid id n b c :
  evaluate (Chaincode64.GetTokens id) L = Value b →
  0 ≤ b →
  n ≤ 0 →
  Double.exact n →
  10 * (c - 1) < n ≤ 10 * c →
  Double.exact (b - c) →
  c ≤ 0
  ∧ (n ≤ -10 → c < 0)
  ∧ (-10 < n → c = 0)
  ∧ Chaincode64.submit mspid (InvConsumeResource id n) L =
      Committed (record L mspid id (b - c))
                (Some ("ConsumeResource", JS.toString (b - c)))
  ∧ evaluate (Chaincode64.GetTokens id) (record L mspid id (b - c))
      = Value (b - c).
Proof.
  intros Hb Hpos Hn Hex Hc Hbc. split_and!; [lia|lia|lia| |].
  - rewrite (submit64_ConsumeResource_exact L mspid id n b c) by done.
    by destruct (Z.leb_spec 0 (b - c)); [|lia].
  - by apply GetTokens64_record.
Qed.

Lemma ConsumeResource_nonpositive_length_exact_witness :
  Chaincode64.submit "Org1MSP" (InvConsumeResource "alice" (-25))
    (record genesis "Org1MSP" "alice" 5)
  = Committed (record (record genesis "Org1MSP" "alice" 5) "Org1MSP" "alice" 7)
              (Some ("ConsumeResource", "7")).
Proof.
  apply (ConsumeResource_nonpositive_length_exact
           (record genesis "Org1MSP" "alice" 5) "Org1MSP" "alice" (-25) 5 (-2)).
  - vm_compute; reflexivity.
  - lia.
  - lia.
  - vm_compute; discriminate.
  - lia.
  - vm_compute; discriminate.
Defined.

End Extras64.

Section Compositions64.
Import Chaincode.

(** Contributing [data] and then consuming a length equal to that of [data]
    brings an account with a non-negative balance [b] back to [b], as long
    as the balance in between stays within [2 ^ 53]. *)
Theorem Contribute_then_Consume_restores_exact L mspid mspid' id data b c :
  evaluate (Chaincode64.GetTokens id) L = Value b →
  0 ≤ b →
  Double.exact (JS.length data) →
  10 * (c - 1) < JS.length data ≤ 10 * c →
  Double.exact (b + c) →
  let L1 := record L mspid id (b + c) in
  Chaincode64.submit mspid (InvContributeResource id data) L =
    Committed L1 (Some ("ContributeResource", JS.toString (b + c)))
  ∧ Chaincode64.submit mspid' (InvConsumeResource id (JS.length data)) L1 =
      Committed (record L1 mspid' id b) (Some ("ConsumeResource", JS.toString b))
  ∧ evaluate (Chaincode64.GetTokens id) (record L1 mspid' id b) = Value b.
Proof.
  intros Hb Hpos Hlen Hc Hbc L1.
  pose proof (length_nonneg data) as Hl.
  assert (Double.exact b) as Hbex by (unfold Double.exact in *; lia).
  split_and!.
  - by apply submit64_ContributeResource_exact.
  - rewrite (submit64_ConsumeResource_exact L1 mspid' id (JS.length data)
               (b + c) c); try done.
    + replace (b + c - c) with b by lia.
      by destruct (Z.leb_spec 0 b); [|lia].
    + by apply GetTokens64_record.
    + by replace (b + c - c) with b by lia.
  - by apply GetTokens64_record.
Qed.

Lemma Contribute_then_Consume_restores_exact_witness :
  evaluate (Chaincode64.GetTokens "alice")
    (record (record (record genesis "Org1MSP" "alice" 5)
                    "Org1MSP" "alice" (5 + 1))
            "Org2MSP" "alice" 5) = Value 5.
Proof.
  apply (Contribute_then_Consume_restores_exact
           (record genesis "Org1MSP" "alice" 5)
           "Org1MSP" "Org2MSP" "alice" "some data" 5 1).
  - vm_compute; reflexivity.
  - lia.
  - vm_compute; discriminate.
  - vm_compute. split; [reflexivity|discriminate].
  - vm_compute; discriminate.
Defined.

(** Contributing in two pieces adds the two costs, as long as the balances
    stay within [2 ^ 53]; the sum of the two costs is never less than the
    cost of the whole and at most one token more. *)
Theorem Contribute_in_two_pieces_exact L mspid id data1 data2 b c1 c2 c :
  evaluate (Chaincode64.GetTokens id) L = Value b →
  Double.exact (JS.length data1) →
  Double.exact (JS.length data2) →
  10 * (c1 - 1) < JS.length data1 ≤ 10 * c1 →
  10 * (c2 - 1) < JS.length data2 ≤ 10 * c2 →
  10 * (c - 1) < JS.length (data1 +:+ data2) ≤ 10 * c →
  Double.exact (b + c1) →
  Double.exact (b + c1 + c2) →
  let L1 := record L mspid id (b + c1) in
  Chaincode64.submit mspid (InvContributeResource id data1) L =
    Committed L1 (Some ("ContributeResource", JS.toString (b + c1)))
  ∧ Chaincode64.submit mspid (InvContributeResource id data2) L1 =
      Committed (record L1 mspid id (b + c1 + c2))
                (Some ("ContributeResource", JS.toString (b + c1 + c2)))
  ∧ c ≤ c1 + c2 ≤ c + 1.
Proof.
  intros Hb Hl1 Hl2 Hc1 Hc2 Hc Hb1 Hb2 L1. split_and!.
  - by apply submit64_ContributeResource_exact.
  - apply submit64_ContributeResource_exact; try done.
    by apply GetTokens64_record.
  - rewrite length_append in Hc. lia.
  - rewrite length_append in Hc. lia.
Qed.

Lemma Contribute_in_two_pieces_exact_witness :
  Chaincode64.submit "Org1MSP" (InvContributeResource "alice" "b")
    (record (record genesis "Org1MSP" "alice" 5) "Org1MSP" "alice" (5 + 1))
  = Committed (record (record (record genesis "Org1MSP" "alice" 5)
                              "Org1MSP" "alice" (5 + 1))
                      "Org1MSP" "alice" (5 + 1 + 1))
              (Some ("ContributeResource", JS.toString (5 + 1 + 1))).
Proof.
  apply (Contribute_in_two_pieces_exact
           (record genesis "Org1MSP" "alice" 5) "Org1MSP" "alice" "a" "b" 5 1 1 1).
  - vm_compute; reflexivity.
  - vm_compute; discriminate.
  - vm_compute; discriminate.
  - vm_compute. split; [reflexivity|discriminate].
  - vm_compute. split; [reflexivity|discriminate].
  - vm_compute. split; [reflexivity|discriminate].
  - vm_compute; discriminate.
  - vm_compute; discriminate.
Defined.

End Compositions64.
